(** * Property rules of the SystemRDL compiler (systemrdl/core/properties.py)

    A shallow embedding of the property rule engine: the rule classes with
    their class attributes, the three methods [assign_value], [get_default]
    and [validate] with the overrides of the subclasses, the rule book, and
    the properties of these that the specification states. *)

From stdpp Require Import gmap strings list fin_maps pretty.

(** ** Python strings *)

(** [str.lower()] on ASCII text. *)
Definition ascii_lower (c : Ascii.ascii) : Ascii.ascii :=
  let n := Ascii.nat_of_ascii c in
  if (65 <=? n)%nat && (n <=? 90)%nat then Ascii.ascii_of_nat (n + 32) else c.

Fixpoint lower (s : string) : string :=
  match s with
  | EmptyString => EmptyString
  | String c s' => String (ascii_lower c) (lower s')
  end.

(** [str.replace] of [Prop_] by the empty string, as [get_name] calls it:
    every occurrence is dropped, scanning from the left. [skip] counts the
    characters of an occurrence that remain to be dropped. *)
Fixpoint remove_Prop_ (skip : nat) (s : string) : string :=
  match s with
  | EmptyString => EmptyString
  | String c s' =>
      match skip with
      | S k => remove_Prop_ k s'
      | O => if String.prefix "Prop_" s then remove_Prop_ 4 s'
             else String c (remove_Prop_ 0 s')
      end
  end.

(** ** Component kinds and value types *)

(** The component classes of [systemrdl.component] that rules bind to;
    [type(comp_def)] is one of them. *)
Inductive comp_kind := Addrmap | Field | Mem | Reg | Regfile | Signal.

#[global] Instance comp_kind_eq_dec : EqDecision comp_kind.
Proof. solve_decision. Defined.

(** [cls.__name__] of a component class. *)
Definition class_name (k : comp_kind) : string :=
  match k with
  | Addrmap => "Addrmap" | Field => "Field" | Mem => "Mem"
  | Reg => "Reg" | Regfile => "Regfile" | Signal => "Signal"
  end.

(** The enumerations of [rdltypes] whose members are literals. *)
Inductive builtin_enum :=
  AccessType | OnReadType | OnWriteType | AddressingType | PrecedenceType.

#[global] Instance builtin_enum_eq_dec : EqDecision builtin_enum.
Proof. solve_decision. Defined.

(** The type objects that occur in [valid_types] and that
    [predict_type()] answers with. *)
Inductive rdl_type :=
| Tbool
| Tint
| Tstr
| Tcomp (k : comp_kind)
| Tenum (e : builtin_enum)
| TUserEnum
| TArray (element_type : rdl_type)
| TOther (cls : string).

#[global] Instance rdl_type_eq_dec : EqDecision rdl_type.
Proof. solve_decision. Defined.

(** A [FieldNode] held as a property value, through the three attributes
    the rules read from it: [get_path()], [inst.inst_name], [inst.width]. *)
Record NodeRef := {
  ref_path : string;
  ref_inst_name : string;
  ref_width : Z
}.

Section Rules.

(** The collaborators of this module that live elsewhere in the compiler:
    the expression classes of [expressions] with their [predict_type()]
    method, the castability relation [expressions.is_castable], and the
    source contexts handed to the message sink. *)
Context {Expr ErrCtx : Type}.
Variable predict_type : Expr -> rdl_type.
Variable is_castable : rdl_type -> rdl_type -> bool.

(** The Python values that reach the rules. *)
Inductive value :=
| VNone
| VBool (b : bool)
| VInt (n : Z)
| VStr (s : string)
| VEnumLit (e : builtin_enum) (member : string)
| VUserEnum (cls : string)
| VExpr (e : Expr)
| VFieldNode (ref : NodeRef)
| VObject (cls : string).

(** Python's [not v]: the negated truth value. Objects without [__bool__]
    and [__len__] are true. *)
Definition py_not (v : value) : bool :=
  match v with
  | VNone => true
  | VBool b => negb b
  | VInt n => (n =? 0)%Z
  | VStr s => String.eqb s EmptyString
  | _ => false
  end.

(** Python's [v == True] for a value that is [None], a [bool], an [int] or
    a [str]; [1 == True] holds as well. For an object the comparison is the
    one of its class, which lives outside this module: the model answers
    [False] there, and what is stated about the comparison is stated for
    the four kinds of value above. *)
Definition py_eq_True (v : value) : bool :=
  match v with
  | VBool b => b
  | VInt n => (n =? 1)%Z
  | _ => false
  end.

(** [value >= 2**width] for an [int] value. For a negative exponent Python
    computes a float: down to [2**-1074] it lies strictly between 0 and 1,
    which an [int] reaches exactly when it is at least 1; below that it
    underflows to [0.0], which an [int] reaches exactly when it is not
    negative. An exponent that no float can hold is beyond the model. *)
Definition ge_pow2 (v w : Z) : bool :=
  if (0 <=? w)%Z then (2 ^ w <=? v)%Z
  else if (-1074 <=? w)%Z then (1 <=? v)%Z
  else (0 <=? v)%Z.

(** A component ([comp_def], [node.inst]): its class, the attributes the
    rules read, and the mapping of explicitly assigned properties. *)
Record Component := {
  kind : comp_kind;
  name : string;
  inst_name : string;
  width : Z;
  external : bool;
  inst_err_ctx : ErrCtx;
  properties : gmap string value
}.

Definition set_property (k : string) (v : value) (c : Component) : Component :=
  {| kind := kind c; name := name c; inst_name := inst_name c;
     width := width c; external := external c;
     inst_err_ctx := inst_err_ctx c;
     properties := <[k := v]> (properties c) |}.

Definition del_property (k : string) (c : Component) : Component :=
  {| kind := kind c; name := name c; inst_name := inst_name c;
     width := width c; external := external c;
     inst_err_ctx := inst_err_ctx c;
     properties := delete k (properties c) |}.

(** A node of the elaborated tree: the instance it wraps and its path. *)
Record Node := {
  inst : Component;
  get_path : string
}.

(** ** Exceptions, the message sink and the monad of the methods *)

Inductive exn :=
| RDLCompileError (text : string) (ctx : ErrCtx)
| RuntimeError
| AttributeError
| LookupError (key : string)
| RecursionError.

(** What a method sees and may change: the object it is handed ([comp_def]
    or [node]) and the messages recorded by [self.compiler.msg]. *)
Record Env (T : Type) := mkEnv {
  target : T;
  msg : list (string * ErrCtx)
}.
Arguments mkEnv {T} _ _.
Arguments target {T} _.
Arguments msg {T} _.

Inductive outcome (S A : Type) :=
| Returns (a : A) (s : S)
| Raises (e : exn) (s : S).
Arguments Returns {S A} _ _.
Arguments Raises {S A} _ _.

Definition final_state {S A} (o : outcome S A) : S :=
  match o with Returns _ s => s | Raises _ s => s end.

Definition M (S A : Type) : Type := S -> outcome S A.

Definition ret {S A} (a : A) : M S A := fun s => Returns a s.

Definition bind {S A B} (m : M S A) (k : A -> M S B) : M S B :=
  fun s => match m s with
           | Returns a s' => k a s'
           | Raises e s' => Raises e s'
           end.

Definition raise {S A} (e : exn) : M S A := fun s => Raises e s.

Definition gets {S A} (f : S -> A) : M S A := fun s => Returns (f s) s.

Definition modify_target {T} (f : T -> T) : M (Env T) unit :=
  fun s => Returns tt (mkEnv (f (target s)) (msg s)).

Notation "x <- m ;; k" := (bind m (fun x => k))
  (at level 100, m at next level, right associativity).
Notation "m ;;; k" := (bind m (fun _ => k))
  (at level 100, right associativity).

(** Modelled from the spec: [compiler.msg.fatal], of the diagnostic sink
    that is not part of this module. It aborts the processing of the current
    construct: it raises, and the exception carries the message. *)
Definition msg_fatal {T A} (text : string) (ctx : ErrCtx) : M (Env T) A :=
  raise (RDLCompileError text ctx).

(** Modelled from the spec: [compiler.msg.error], the recoverable severity
    of the same sink. The message is appended to the recorded ones and the
    caller goes on. *)
Definition msg_error {T} (text : string) (ctx : ErrCtx) : M (Env T) unit :=
  fun s => Returns tt (mkEnv (target s) (msg s ++ [(text, ctx)])).

(** ** The rule classes *)

(** The methods a rule class overrides. Every class below [PropertyRule]
    overrides at most one of the three methods, except
    [PropertyRuleBoolPair], which overrides two. *)
Inductive rule_class :=
| PlainRule
| BoolPairRule (opposite_property : string)
| NameRule
| InstWidthRule
| AccesswidthRule
| AliasRule (actual : string)
| ErrextbusRule
| NextRule
| ResetRule.

(** A rule class with its class attributes. *)
Record PropertyRule := mkRule {
  cls_name : string;
  bindable_to : list comp_kind;
  valid_types : list rdl_type;
  default : value;
  dyn_assign_allowed : bool;
  mutex_group : option string;
  overrides : rule_class
}.

Definition get_name (cls : PropertyRule) : string :=
  remove_Prop_ 0 (cls_name cls).

(** The [for valid_type in self.valid_types: ... break ... else:] loop of
    [assign_value]: [true] when the loop leaves through [break]. *)
Fixpoint compatible (assign_type : rdl_type) (types : list rdl_type) : bool :=
  match types with
  | [] => false
  | valid_type :: rest =>
      if is_castable assign_type valid_type then true
      else compatible assign_type rest
  end.

(** The step of [assign_value] that unpacks the true type of the value: a
    [bool], a [PrecedenceType] literal, an expression, a user-defined
    enumeration; anything else raises [RuntimeError]. *)
Definition unpack_type {S} (v : value) : M S rdl_type :=
  match v with
  | VBool _ => ret Tbool
  | VEnumLit PrecedenceType _ => ret (Tenum PrecedenceType)
  | VExpr e => ret (predict_type e)
  | VUserEnum _ => ret TUserEnum
  | _ => raise RuntimeError
  end.

(** The texts of the two fatal messages of [assign_value]. *)
Definition not_valid_text (self : PropertyRule) (comp_def : Component)
    : string :=
  "The property '" +:+ get_name self +:+ "' is not valid for '"
  +:+ lower (class_name (kind comp_def)) +:+ "' components".

Definition incompatible_text (self : PropertyRule) : string :=
  "Incompatible assignment to property '" +:+ get_name self +:+ "'".

(** [PropertyRule.assign_value] *)
Definition PropertyRule_assign_value (self : PropertyRule) (v : value)
    (err_ctx : ErrCtx) : M (Env Component) unit :=
  comp_def <- gets target ;;
  (if bool_decide (kind comp_def ∈ bindable_to self) then ret tt
   else msg_fatal (not_valid_text self comp_def) err_ctx) ;;;
  assign_type <- unpack_type v ;;
  (if compatible assign_type (valid_types self) then ret tt
   else msg_fatal (incompatible_text self) err_ctx) ;;;
  modify_target (set_property (get_name self) v).

(** [assign_value] with the side effects of the subclasses:
    [PropertyRuleBoolPair] clears the opposite, the alias classes
    ([Prop_threshold], [Prop_saturate], [Prop_incrthreshold],
    [Prop_incrsaturate]) write a second key. *)
Definition assign_value (self : PropertyRule) (v : value) (err_ctx : ErrCtx)
    : M (Env Component) unit :=
  match overrides self with
  | BoolPairRule opposite_property =>
      PropertyRule_assign_value self v err_ctx ;;;
      present <- gets (fun s =>
        bool_decide (is_Some (properties (target s) !! opposite_property))) ;;
      if present : bool then modify_target (del_property opposite_property)
      else ret tt
  | AliasRule actual =>
      PropertyRule_assign_value self v err_ctx ;;;
      modify_target (set_property actual v)
  | _ => PropertyRule_assign_value self v err_ctx
  end.

(** ** The rule book *)

(** [PropertyRuleBook]: the built-in rules by name and the user-defined
    ones. *)
Record PropertyRuleBook := {
  rdl_properties : gmap string PropertyRule;
  user_properties : gmap string PropertyRule
}.

(** [PropertyRuleBook.lookup_property] *)
Definition lookup_property (self : PropertyRuleBook) (prop_name : string)
    : option PropertyRule :=
  match rdl_properties self !! prop_name with
  | Some rule => Some rule
  | None =>
      match user_properties self !! prop_name with
      | Some rule => Some rule
      | None => None
      end
  end.

(** ** Default values *)

(** Modelled from the spec: [Node.get_property], which is defined with the
    node classes and not in this module. The explicitly assigned value when
    the instance has one; otherwise the default-resolution path of the rule
    the book has under that name. [resolve] is the [get_default] method
    bound to the book. *)
Definition Node_get_property (book : PropertyRuleBook)
    (resolve : PropertyRule -> M (Env Node) value) (prop_name : string)
    : M (Env Node) value :=
  stored <- gets (fun s => properties (inst (target s)) !! prop_name) ;;
  match stored with
  | Some v => ret v
  | None =>
      match lookup_property book prop_name with
      | Some rule => resolve rule
      | None => raise (LookupError prop_name)
      end
  end.

(** [PropertyRule.get_default] *)
Definition PropertyRule_get_default (self : PropertyRule)
    : M (Env Node) value :=
  ret (default self).

(** [PropertyRuleBoolPair.get_default] *)
Definition PropertyRuleBoolPair_get_default (self : PropertyRule)
    (opposite_property : string) : M (Env Node) value :=
  opposite <- gets (fun s =>
    properties (inst (target s)) !! opposite_property) ;;
  match opposite with
  | Some v => ret (VBool (py_not v))
  | None => ret (default self)
  end.

(** [get_default] with the overrides of [Prop_name], [Prop_signalwidth],
    [Prop_fieldwidth], [Prop_accesswidth] and [PropertyRuleBoolPair].
    [depth] bounds the nesting of calls the way the interpreter's recursion
    limit does: every call uses one level, and a call with none left raises
    [RecursionError]. *)
Fixpoint get_default (book : PropertyRuleBook) (depth : nat)
    (self : PropertyRule) : M (Env Node) value :=
  match depth with
  | O => raise RecursionError
  | S depth' =>
      match overrides self with
      | BoolPairRule opposite_property =>
          PropertyRuleBoolPair_get_default self opposite_property
      | NameRule => gets (fun s => VStr (name (inst (target s))))
      | InstWidthRule => gets (fun s => VInt (width (inst (target s))))
      | AccesswidthRule =>
          Node_get_property book (get_default book depth') "regwidth"
      | _ => PropertyRule_get_default self
      end
  end.

(** ** Validation *)

Definition when {S} (b : bool) (m : M S unit) : M S unit :=
  if b then m else ret tt.

(** [Prop_errextbus.validate] *)
Definition Prop_errextbus_validate (v : value) : M (Env Node) unit :=
  node <- gets target ;;
  when (negb (external (inst node)) && py_eq_True v)
    (msg_error
       ("The 'errextbus' property is set to 'true', but instance '"
        +:+ inst_name (inst node) +:+ "' is not external")
       (inst_err_ctx (inst node))).

(** [Prop_next.validate]. A value without [get_path] raises
    [AttributeError]; of the values that have it, the model holds the
    references to field nodes, the type the rule accepts. *)
Definition Prop_next_validate (v : value) : M (Env Node) unit :=
  node <- gets target ;;
  match v with
  | VFieldNode ref =>
      when (String.eqb (get_path node) (ref_path ref))
        (msg_error
           ("Field '" +:+ inst_name (inst node)
            +:+ "' cannot reference itself in next property")
           (inst_err_ctx (inst node)))
  | _ => raise AttributeError
  end.

(** The text of the first message of [Prop_reset.validate]. *)
Definition exceeds_width_text (n : Z) (node : Node) : string :=
  "The reset value (" +:+ pretty n +:+ ") of field '"
  +:+ inst_name (inst node) +:+ "' exceeds it's width ("
  +:+ pretty (width (inst node)) +:+ ")".

(** [Prop_reset.validate] *)
Definition Prop_reset_validate (v : value) : M (Env Node) unit :=
  node <- gets target ;;
  match v with
  | VInt n =>
      when (ge_pow2 n (width (inst node)))
        (msg_error (exceeds_width_text n node) (inst_err_ctx (inst node)))
  | VFieldNode ref =>
      when (negb (width (inst node) =? ref_width ref)%Z)
        (msg_error
           ("Field '" +:+ inst_name (inst node) +:+ "' references field '"
            +:+ ref_inst_name ref
            +:+ "' as its reset value but they are not the same size ("
            +:+ pretty (width (inst node)) +:+ " != "
            +:+ pretty (ref_width ref) +:+ ")")
           (inst_err_ctx (inst node))) ;;;
      when (String.eqb (get_path node) (ref_path ref))
        (msg_error
           ("Field '" +:+ inst_name (inst node)
            +:+ "' cannot reference itself in reset property")
           (inst_err_ctx (inst node)))
  | _ => raise RuntimeError
  end.

(** [validate]: no check in [PropertyRule] itself. *)
Definition validate (self : PropertyRule) (v : value) : M (Env Node) unit :=
  match overrides self with
  | ErrextbusRule => Prop_errextbus_validate v
  | NextRule => Prop_next_validate v
  | ResetRule => Prop_reset_validate v
  | _ => ret tt
  end.

End Rules.

Arguments mkEnv {ErrCtx T} _ _.
Arguments target {ErrCtx T} _.
Arguments msg {ErrCtx T} _.
Arguments Returns {ErrCtx S A} _ _.
Arguments Raises {ErrCtx S A} _ _.

(** ** The catalog of built-in rules *)

Section Catalog.

Context {Expr : Type}.

(** [PropertyRuleBoolPair] itself: the attributes it inherits from
    [PropertyRule], and an empty [opposite_property]. *)
Definition PropertyRuleBoolPair : @PropertyRule Expr :=
  mkRule "PropertyRuleBoolPair" [] [] VNone true None (BoolPairRule EmptyString).

Definition Prop_name : @PropertyRule Expr :=
  mkRule "Prop_name" [Addrmap; Field; Mem; Reg; Regfile; Signal] [Tstr]
    (VStr EmptyString) true None NameRule.

Definition Prop_desc : @PropertyRule Expr :=
  mkRule "Prop_desc" [Addrmap; Field; Mem; Reg; Regfile; Signal] [Tstr]
    VNone true None PlainRule.

Definition Prop_dontcompare : @PropertyRule Expr :=
  mkRule "Prop_dontcompare" [Addrmap; Reg; Regfile; Field] [Tbool; Tint]
    (VBool false) true (Some "O") PlainRule.

Definition Prop_donttest : @PropertyRule Expr :=
  mkRule "Prop_donttest" [Addrmap; Reg; Regfile; Field] [Tbool; Tint]
    (VBool false) true (Some "O") PlainRule.

Definition Prop_ispresent : @PropertyRule Expr :=
  mkRule "Prop_ispresent" [Addrmap; Field; Mem; Reg; Regfile; Signal] [Tbool]
    (VBool true) true None PlainRule.

Definition Prop_errextbus : @PropertyRule Expr :=
  mkRule "Prop_errextbus" [Addrmap; Reg; Regfile] [Tbool]
    (VBool false) false None ErrextbusRule.

Definition Prop_hdl_path : @PropertyRule Expr :=
  mkRule "Prop_hdl_path" [Addrmap; Reg; Regfile] [Tstr]
    VNone true None PlainRule.

Definition Prop_hdl_path_gate : @PropertyRule Expr :=
  mkRule "Prop_hdl_path_gate" [Addrmap; Reg; Regfile] [Tstr]
    VNone true None PlainRule.

Definition Prop_hdl_path_gate_slice : @PropertyRule Expr :=
  mkRule "Prop_hdl_path_gate_slice" [Addrmap; Reg; Regfile] [TArray Tstr]
    VNone true None PlainRule.

Definition Prop_hdl_path_slice : @PropertyRule Expr :=
  mkRule "Prop_hdl_path_slice" [Addrmap; Reg; Regfile] [TArray Tstr]
    VNone true None PlainRule.

Definition Prop_signalwidth : @PropertyRule Expr :=
  mkRule "Prop_signalwidth" [Signal] [Tint]
    VNone false None InstWidthRule.

Definition Prop_sync : @PropertyRule Expr :=
  mkRule "Prop_sync" [Signal] [Tbool]
    (VBool true) true (Some "N") (BoolPairRule "async").

Definition Prop_async : @PropertyRule Expr :=
  mkRule "Prop_async" [Signal] [Tbool]
    (VBool false) true (Some "N") (BoolPairRule "sync").

Definition Prop_cpuif_reset : @PropertyRule Expr :=
  mkRule "Prop_cpuif_reset" [Signal] [Tbool]
    (VBool false) true None PlainRule.

Definition Prop_field_reset : @PropertyRule Expr :=
  mkRule "Prop_field_reset" [Signal] [Tbool]
    (VBool false) true None PlainRule.

Definition Prop_activelow : @PropertyRule Expr :=
  mkRule "Prop_activelow" [Signal] [Tbool]
    (VBool false) true (Some "A") PlainRule.

Definition Prop_activehigh : @PropertyRule Expr :=
  mkRule "Prop_activehigh" [Signal] [Tbool]
    (VBool false) true (Some "A") PlainRule.

Definition Prop_hw : @PropertyRule Expr :=
  mkRule "Prop_hw" [Field] [Tenum AccessType]
    (VEnumLit AccessType "rw") false None PlainRule.

Definition Prop_sw : @PropertyRule Expr :=
  mkRule "Prop_sw" [Field; Mem] [Tenum AccessType]
    (VEnumLit AccessType "rw") true None PlainRule.

Definition Prop_next : @PropertyRule Expr :=
  mkRule "Prop_next" [Field] [Tcomp Field]
    VNone true None NextRule.

Definition Prop_reset : @PropertyRule Expr :=
  mkRule "Prop_reset" [Field] [Tint; Tcomp Field]
    VNone true None ResetRule.

Definition Prop_resetsignal : @PropertyRule Expr :=
  mkRule "Prop_resetsignal" [Field] [Tcomp Signal]
    VNone true None PlainRule.

Definition Prop_rclr : @PropertyRule Expr :=
  mkRule "Prop_rclr" [Field] [Tbool]
    (VBool false) true (Some "P") PlainRule.

Definition Prop_rset : @PropertyRule Expr :=
  mkRule "Prop_rset" [Field] [Tbool]
    (VBool false) true (Some "P") PlainRule.

Definition Prop_onread : @PropertyRule Expr :=
  mkRule "Prop_onread" [Field] [Tenum OnReadType]
    VNone true (Some "P") PlainRule.

Definition Prop_woset : @PropertyRule Expr :=
  mkRule "Prop_woset" [Field] [Tbool]
    (VBool false) true (Some "B") PlainRule.

Definition Prop_woclr : @PropertyRule Expr :=
  mkRule "Prop_woclr" [Field] [Tbool]
    (VBool false) true (Some "B") PlainRule.

Definition Prop_onwrite : @PropertyRule Expr :=
  mkRule "Prop_onwrite" [Field] [Tenum OnWriteType]
    VNone true (Some "B") PlainRule.

Definition Prop_swwe : @PropertyRule Expr :=
  mkRule "Prop_swwe" [Field] [Tbool]
    (VBool false) true (Some "R") PlainRule.

Definition Prop_swwel : @PropertyRule Expr :=
  mkRule "Prop_swwel" [Field] [Tbool]
    (VBool false) true (Some "R") PlainRule.

Definition Prop_swmod : @PropertyRule Expr :=
  mkRule "Prop_swmod" [Field] [Tbool]
    (VBool false) true None PlainRule.

Definition Prop_swacc : @PropertyRule Expr :=
  mkRule "Prop_swacc" [Field] [Tbool]
    (VBool false) true None PlainRule.

Definition Prop_singlepulse : @PropertyRule Expr :=
  mkRule "Prop_singlepulse" [Field] [Tbool]
    (VBool false) true None PlainRule.

Definition Prop_we : @PropertyRule Expr :=
  mkRule "Prop_we" [Field] [Tbool]
    (VBool false) true (Some "C") PlainRule.

Definition Prop_wel : @PropertyRule Expr :=
  mkRule "Prop_wel" [Field] [Tbool]
    (VBool false) true (Some "C") PlainRule.

Definition Prop_anded : @PropertyRule Expr :=
  mkRule "Prop_anded" [Field] [Tbool]
    (VBool false) true None PlainRule.

Definition Prop_ored : @PropertyRule Expr :=
  mkRule "Prop_ored" [Field] [Tbool]
    (VBool false) true None PlainRule.

Definition Prop_xored : @PropertyRule Expr :=
  mkRule "Prop_xored" [Field] [Tbool]
    (VBool false) true None PlainRule.

Definition Prop_fieldwidth : @PropertyRule Expr :=
  mkRule "Prop_fieldwidth" [Field] [Tint]
    VNone false None InstWidthRule.

Definition Prop_hwclr : @PropertyRule Expr :=
  mkRule "Prop_hwclr" [Field] [Tbool]
    (VBool false) true None PlainRule.

Definition Prop_hwset : @PropertyRule Expr :=
  mkRule "Prop_hwset" [Field] [Tbool]
    (VBool false) true None PlainRule.

Definition Prop_hwenable : @PropertyRule Expr :=
  mkRule "Prop_hwenable" [Field] [Tcomp Field]
    VNone true (Some "D") PlainRule.

Definition Prop_hwmask : @PropertyRule Expr :=
  mkRule "Prop_hwmask" [Field] [Tcomp Field]
    VNone true (Some "D") PlainRule.

Definition Prop_counter : @PropertyRule Expr :=
  mkRule "Prop_counter" [Field] [Tbool]
    (VBool false) true (Some "E") PlainRule.

Definition Prop_threshold : @PropertyRule Expr :=
  mkRule "Prop_threshold" [Field] [Tbool; Tint; Tcomp Signal]
    (VBool false) true (Some "incrthreshold alias") (AliasRule "incrthreshold").

Definition Prop_saturate : @PropertyRule Expr :=
  mkRule "Prop_saturate" [Field] [Tbool; Tint; Tcomp Signal]
    (VBool false) true (Some "incrsaturate alias") (AliasRule "incrsaturate").

Definition Prop_incrthreshold : @PropertyRule Expr :=
  mkRule "Prop_incrthreshold" [Field] [Tbool; Tint; Tcomp Signal]
    (VBool false) true (Some "incrthreshold alias") (AliasRule "incrthreshold").

Definition Prop_incrsaturate : @PropertyRule Expr :=
  mkRule "Prop_incrsaturate" [Field] [Tbool; Tint; Tcomp Signal]
    (VBool false) true (Some "incrsaturate alias") (AliasRule "incrsaturate").

Definition Prop_overflow : @PropertyRule Expr :=
  mkRule "Prop_overflow" [Field] [Tbool]
    (VBool false) true None PlainRule.

Definition Prop_underflow : @PropertyRule Expr :=
  mkRule "Prop_underflow" [Field] [Tbool]
    (VBool false) true None PlainRule.

Definition Prop_incr : @PropertyRule Expr :=
  mkRule "Prop_incr" [Field] [Tcomp Signal]
    VNone true None PlainRule.

Definition Prop_incrvalue : @PropertyRule Expr :=
  mkRule "Prop_incrvalue" [Field] [Tint; Tcomp Signal]
    VNone true (Some "F") PlainRule.

Definition Prop_incrwidth : @PropertyRule Expr :=
  mkRule "Prop_incrwidth" [Field] [Tint]
    VNone true (Some "F") PlainRule.

Definition Prop_decrvalue : @PropertyRule Expr :=
  mkRule "Prop_decrvalue" [Field] [Tint; Tcomp Signal]
    VNone true (Some "G") PlainRule.

Definition Prop_decr : @PropertyRule Expr :=
  mkRule "Prop_decr" [Field] [Tcomp Signal]
    VNone true None PlainRule.

Definition Prop_decrwidth : @PropertyRule Expr :=
  mkRule "Prop_decrwidth" [Field] [Tint]
    VNone true (Some "G") PlainRule.

Definition Prop_decrsaturate : @PropertyRule Expr :=
  mkRule "Prop_decrsaturate" [Field] [Tbool; Tint; Tcomp Signal]
    (VBool false) true None PlainRule.

Definition Prop_decrthreshold : @PropertyRule Expr :=
  mkRule "Prop_decrthreshold" [Field] [Tbool; Tint; Tcomp Signal]
    (VBool false) true None PlainRule.

Definition Prop_intr : @PropertyRule Expr :=
  mkRule "Prop_intr" [Field] [Tbool]
    (VBool false) true (Some "E") PlainRule.

Definition Prop_enable : @PropertyRule Expr :=
  mkRule "Prop_enable" [Field] [Tcomp Field]
    VNone true (Some "J") PlainRule.

Definition Prop_mask : @PropertyRule Expr :=
  mkRule "Prop_mask" [Field] [Tcomp Field]
    VNone true (Some "J") PlainRule.

Definition Prop_haltenable : @PropertyRule Expr :=
  mkRule "Prop_haltenable" [Field] [Tcomp Field]
    VNone true (Some "K") PlainRule.

Definition Prop_haltmask : @PropertyRule Expr :=
  mkRule "Prop_haltmask" [Field] [Tcomp Field]
    VNone true (Some "K") PlainRule.

Definition Prop_sticky : @PropertyRule Expr :=
  mkRule "Prop_sticky" [Field] [Tbool]
    (VBool false) true (Some "I") PlainRule.

Definition Prop_stickybit : @PropertyRule Expr :=
  mkRule "Prop_stickybit" [Field] [Tbool]
    (VBool false) true (Some "I") PlainRule.

Definition Prop_encode : @PropertyRule Expr :=
  mkRule "Prop_encode" [Field] [TUserEnum]
    VNone true None PlainRule.

Definition Prop_precedence : @PropertyRule Expr :=
  mkRule "Prop_precedence" [Field] [Tenum PrecedenceType]
    (VEnumLit PrecedenceType "sw") true None PlainRule.

Definition Prop_paritycheck : @PropertyRule Expr :=
  mkRule "Prop_paritycheck" [Field] [Tbool]
    (VBool false) false None PlainRule.

Definition Prop_regwidth : @PropertyRule Expr :=
  mkRule "Prop_regwidth" [Reg] [Tint]
    (VInt 32) false None PlainRule.

Definition Prop_accesswidth : @PropertyRule Expr :=
  mkRule "Prop_accesswidth" [Reg] [Tint]
    VNone true None AccesswidthRule.

Definition Prop_shared : @PropertyRule Expr :=
  mkRule "Prop_shared" [Reg] [Tbool]
    (VBool false) false None PlainRule.

Definition Prop_mementries : @PropertyRule Expr :=
  mkRule "Prop_mementries" [Mem] [Tint]
    (VInt 1) false None PlainRule.

Definition Prop_memwidth : @PropertyRule Expr :=
  mkRule "Prop_memwidth" [Mem] [Tint]
    (VInt 32) false None PlainRule.

Definition Prop_alignment : @PropertyRule Expr :=
  mkRule "Prop_alignment" [Addrmap; Regfile] [Tint]
    VNone false None PlainRule.

Definition Prop_sharedextbus : @PropertyRule Expr :=
  mkRule "Prop_sharedextbus" [Addrmap; Regfile] [Tbool]
    (VBool false) false None PlainRule.

Definition Prop_bigendian : @PropertyRule Expr :=
  mkRule "Prop_bigendian" [Addrmap] [Tbool]
    (VBool false) true (Some "L") PlainRule.

Definition Prop_littleendian : @PropertyRule Expr :=
  mkRule "Prop_littleendian" [Addrmap] [Tbool]
    (VBool false) true (Some "L") PlainRule.

Definition Prop_addressing : @PropertyRule Expr :=
  mkRule "Prop_addressing" [Addrmap] [Tenum AddressingType]
    (VEnumLit AddressingType "regalign") false None PlainRule.

Definition Prop_rsvdset : @PropertyRule Expr :=
  mkRule "Prop_rsvdset" [Addrmap] [Tbool]
    (VBool false) false (Some "Q") PlainRule.

Definition Prop_rsvdsetX : @PropertyRule Expr :=
  mkRule "Prop_rsvdsetX" [Addrmap] [Tbool]
    (VBool false) false (Some "Q") PlainRule.

Definition Prop_msb0 : @PropertyRule Expr :=
  mkRule "Prop_msb0" [Addrmap] [Tbool]
    (VBool false) false (Some "M") (BoolPairRule "lsb0").

Definition Prop_lsb0 : @PropertyRule Expr :=
  mkRule "Prop_lsb0" [Addrmap] [Tbool]
    (VBool true) false (Some "M") (BoolPairRule "msb0").

Definition Prop_bridge : @PropertyRule Expr :=
  mkRule "Prop_bridge" [Addrmap] [Tbool]
    (VBool false) false None PlainRule.

(** [cls.__subclasses__()], in the order the classes are defined. *)
Definition PropertyRule_subclasses : list (@PropertyRule Expr) := [
  PropertyRuleBoolPair; Prop_name; Prop_desc; Prop_dontcompare;
   Prop_donttest; Prop_ispresent; Prop_errextbus; Prop_hdl_path;
   Prop_hdl_path_gate; Prop_hdl_path_gate_slice; Prop_hdl_path_slice;
   Prop_signalwidth; Prop_cpuif_reset; Prop_field_reset; Prop_activelow;
   Prop_activehigh; Prop_hw; Prop_sw; Prop_next; Prop_reset;
   Prop_resetsignal; Prop_rclr; Prop_rset; Prop_onread; Prop_woset;
   Prop_woclr; Prop_onwrite; Prop_swwe; Prop_swwel; Prop_swmod; Prop_swacc;
   Prop_singlepulse; Prop_we; Prop_wel; Prop_anded; Prop_ored; Prop_xored;
   Prop_fieldwidth; Prop_hwclr; Prop_hwset; Prop_hwenable; Prop_hwmask;
   Prop_counter; Prop_threshold; Prop_saturate; Prop_incrthreshold;
   Prop_incrsaturate; Prop_overflow; Prop_underflow; Prop_incr;
   Prop_incrvalue; Prop_incrwidth; Prop_decrvalue; Prop_decr;
   Prop_decrwidth; Prop_decrsaturate; Prop_decrthreshold; Prop_intr;
   Prop_enable; Prop_mask; Prop_haltenable; Prop_haltmask; Prop_sticky;
   Prop_stickybit; Prop_encode; Prop_precedence; Prop_paritycheck;
   Prop_regwidth; Prop_accesswidth; Prop_shared; Prop_mementries;
   Prop_memwidth; Prop_alignment; Prop_sharedextbus; Prop_bigendian;
   Prop_littleendian; Prop_addressing; Prop_rsvdset; Prop_rsvdsetX;
   Prop_bridge
].

Definition PropertyRuleBoolPair_subclasses : list (@PropertyRule Expr) := [
  Prop_sync; Prop_async; Prop_msb0; Prop_lsb0
].

Definition subclasses_of (cls : @PropertyRule Expr) : list (@PropertyRule Expr) :=
  if String.eqb (cls_name cls) "PropertyRuleBoolPair"
  then PropertyRuleBoolPair_subclasses
  else [].

(** [get_all_subclasses(PropertyRule)]: the direct subclasses, then the
    subclasses of each of them. The classes below [PropertyRuleBoolPair]
    have no subclasses of their own. *)
Definition get_all_subclasses : list (@PropertyRule Expr) :=
  PropertyRule_subclasses ++ flat_map subclasses_of PropertyRule_subclasses.

(** [PropertyRuleBook.__init__]: every class whose name starts with
    [Prop_] is entered under its name; no user-defined rules yet. *)
Definition load_rules (classes : list (@PropertyRule Expr))
    : gmap string (@PropertyRule Expr) :=
  foldl (fun d prop =>
           let prop_name := get_name prop in
           if String.prefix "Prop_" (cls_name prop)
           then <[prop_name := prop]> d else d)
        ∅ classes.

Definition PropertyRuleBook_init : @PropertyRuleBook Expr :=
  {| rdl_properties := load_rules get_all_subclasses;
     user_properties := ∅ |}.

End Catalog.

(** ** Vocabulary of the statements *)

Section Vocabulary.

Context {Expr ErrCtx : Type}.
Variable predict_type : Expr -> rdl_type.

(** The type [unpack_type] finds for a value, when it finds one. *)
Definition classified (v : @value Expr) : option rdl_type :=
  match v with
  | VBool _ => Some Tbool
  | VEnumLit PrecedenceType _ => Some (Tenum PrecedenceType)
  | VExpr e => Some (predict_type e)
  | VUserEnum _ => Some TUserEnum
  | _ => None
  end.

(** The [opposite_property] attribute of a rule class. *)
Definition opposite_property (self : @PropertyRule Expr) : string :=
  match overrides self with
  | BoolPairRule opposite => opposite
  | _ => EmptyString
  end.

(** A rule does not name itself as its opposite. *)
Definition opposite_differs (self : @PropertyRule Expr) : Prop :=
  match overrides self with
  | BoolPairRule opposite => opposite ≠ get_name self
  | _ => True
  end.

(** A call ends in a recoverable error: it returns, with one more message
    recorded by the sink. *)
Definition recoverable_error {T A}
    (o : @outcome ErrCtx (@Env ErrCtx T) A) (s : @Env ErrCtx T) : Prop :=
  ∃ a s' m, o = Returns a s' ∧ msg s' = msg s ++ [m].

(** A call is aborted by [fatal]: the exception carries the message, and
    the object and the recorded messages are as before the call. *)
Definition fatal_abort {T A} (o : @outcome ErrCtx (@Env ErrCtx T) A)
    (s : @Env ErrCtx T) (text : string) (ctx : ErrCtx) : Prop :=
  o = Raises (RDLCompileError text ctx) s.

(** An assignment succeeds: it returns, the value is stored under the
    rule's name, and no message is recorded. *)
Definition assigned (self : @PropertyRule Expr) (v : @value Expr)
    (o : @outcome ErrCtx (@Env ErrCtx (@Component Expr ErrCtx)) unit)
    (s : @Env ErrCtx (@Component Expr ErrCtx)) : Prop :=
  ∃ s', o = Returns tt s'
        ∧ properties (target s') !! get_name self = Some v
        ∧ msg s' = msg s.

(** The side effect a subclass adds once the base method has stored. *)
Definition side_effect (self : @PropertyRule Expr) (v : @value Expr)
    (c : @Component Expr ErrCtx) : @Component Expr ErrCtx :=
  match overrides self with
  | BoolPairRule opposite =>
      if bool_decide (is_Some (properties c !! opposite))
      then del_property opposite c else c
  | AliasRule actual => set_property actual v c
  | _ => c
  end.

(** Two calls of a method in a row, with both results. *)
Definition twice {S A} (m : @M ErrCtx S A) : @M ErrCtx S (A * A) :=
  bind m (fun first => bind m (fun second => ret (first, second))).

End Vocabulary.

(** ** An instance of the collaborators

    Literal expressions with the types they predict, and a castability
    that relates the numeric types to each other and every type to itself.
    Used to run the methods on concrete inputs. *)
Module Sample.

Inductive Expr :=
| IntLiteral (n : Z)
| StringLiteral (s : string)
| BoolLiteral (b : bool).

Definition predict_type (e : Expr) : rdl_type :=
  match e with
  | IntLiteral _ => Tint
  | StringLiteral _ => Tstr
  | BoolLiteral _ => Tbool
  end.

Definition numeric (t : rdl_type) : bool :=
  match t with Tbool | Tint => true | _ => false end.

Definition is_castable (src dst : rdl_type) : bool :=
  (numeric src && numeric dst) || bool_decide (src = dst).

(** Source contexts: line numbers. *)
Definition ErrCtx : Type := nat.

Definition component (k : comp_kind) (inst_name : string) (width : Z)
    (props : list (string * @value Expr)) : @Component Expr ErrCtx :=
  {| kind := k; name := inst_name; inst_name := inst_name; width := width;
     external := false; inst_err_ctx := 1%nat;
     properties := list_to_map props |}.

Definition node (c : @Component Expr ErrCtx) (path : string)
    : @Node Expr ErrCtx :=
  {| inst := c; get_path := path |}.

(** The state of a run that starts with no message recorded. *)
Definition start {T} (x : T) : @Env ErrCtx T := mkEnv x [].

Definition assign := @assign_value Expr ErrCtx predict_type is_castable.

End Sample.

(** ** Vocabulary of the further properties *)

(** [Prop_] occurs somewhere in a string. *)
Fixpoint occurs_Prop_ (s : string) : bool :=
  match s with
  | EmptyString => false
  | String _ s' => String.prefix "Prop_" s || occurs_Prop_ s'
  end.

Section FurtherVocabulary.

Context {Expr ErrCtx : Type}.

(** The keys of the property mapping that an assignment through a rule
    writes or deletes: its own name, and the opposite or the second key of
    the subclasses. *)
Definition touched_keys (self : @PropertyRule Expr) : list string :=
  get_name self ::
  match overrides self with
  | BoolPairRule opposite => [opposite]
  | AliasRule actual => [actual]
  | _ => []
  end.

(** [type(v)] of the values that the [default] attributes hold. *)
Definition python_type (v : @value Expr) : option rdl_type :=
  match v with
  | VBool _ => Some Tbool
  | VInt _ => Some Tint
  | VStr _ => Some Tstr
  | VEnumLit e _ => Some (Tenum e)
  | _ => None
  end.

(** What an assignment that returns does to the property mapping: the
    store of [PropertyRule.assign_value], then the side effect of the
    subclass. Deleting a key that is absent leaves a mapping as it is. *)
Definition assign_map (self : @PropertyRule Expr) (v : @value Expr)
    (m : gmap string (@value Expr)) : gmap string (@value Expr) :=
  match overrides self with
  | BoolPairRule opposite => delete opposite (<[get_name self := v]> m)
  | AliasRule actual => <[actual := v]> (<[get_name self := v]> m)
  | _ => <[get_name self := v]> m
  end.

(** Two components agree on everything but the property mapping. *)
Definition same_attributes (c c' : @Component Expr ErrCtx) : Prop :=
  kind c' = kind c ∧ name c' = name c ∧ inst_name c' = inst_name c
  ∧ width c' = width c ∧ external c' = external c
  ∧ inst_err_ctx c' = inst_err_ctx c.

(** The node that wraps a component at a path, with the messages recorded
    so far. *)
Definition node_of (s : @Env ErrCtx (@Component Expr ErrCtx)) (path : string)
    : @Env ErrCtx (@Node Expr ErrCtx) :=
  mkEnv {| inst := target s; get_path := path |} (msg s).

End FurtherVocabulary.

(** * Properties *)

Section Properties.

Context {Expr ErrCtx : Type}.
Variable predict_type : Expr -> rdl_type.
Variable is_castable : rdl_type -> rdl_type -> bool.

#[local] Abbreviation rule := (@PropertyRule Expr).
#[local] Abbreviation rulebook := (@PropertyRuleBook Expr).
#[local] Abbreviation comp_env := (@Env ErrCtx (@Component Expr ErrCtx)).
#[local] Abbreviation node_env := (@Env ErrCtx (@Node Expr ErrCtx)).
#[local] Abbreviation base_assign :=
  (@PropertyRule_assign_value Expr ErrCtx predict_type is_castable).
#[local] Abbreviation assign :=
  (@assign_value Expr ErrCtx predict_type is_castable).
#[local] Abbreviation default_of := (@get_default Expr ErrCtx).
#[local] Abbreviation validate_node := (@validate Expr ErrCtx).

(** ** Assignment *)

Lemma unpack_type_classified {S} (v : @value Expr) (s : S) :
  unpack_type (ErrCtx := ErrCtx) predict_type v s =
    match classified predict_type v with
    | Some t => Returns t s
    | None => Raises RuntimeError s
    end.
Proof. destruct v as [| | | |[]| | | |]; reflexivity. Qed.

Lemma compatible_true t (types : list rdl_type) :
  compatible is_castable t types = true ↔
  ∃ valid_type, valid_type ∈ types ∧ is_castable t valid_type = true.
Proof.
  induction types as [|u types IH]; simpl.
  - split; [discriminate|]. intros (x & Hx & _). by apply elem_of_nil in Hx.
  - destruct (is_castable t u) eqn:Hu.
    + split; [|done]. intros _. exists u. split; [left|done].
    + rewrite IH. split.
      * intros (x & Hx & Hc). exists x. split; [by right|done].
      * intros (x & Hx & Hc). apply elem_of_cons in Hx as [->|Hx];
          [congruence|]. by exists x.
Qed.

Lemma compatible_false t (types : list rdl_type) :
  compatible is_castable t types = false ↔
  ∀ valid_type, valid_type ∈ types → is_castable t valid_type = false.
Proof.
  rewrite <- not_true_iff_false, compatible_true. split.
  - intros Hn x Hx. apply not_true_iff_false. intros Hc. apply Hn. eauto.
  - intros Hall (x & Hx & Hc). rewrite (Hall x Hx) in Hc. discriminate.
Qed.

(** The four ways through [PropertyRule.assign_value]. *)
Lemma base_assign_not_bindable (self : rule) v ctx (s : comp_env) :
  kind (target s) ∉ bindable_to self →
  base_assign self v ctx s
  = Raises (RDLCompileError (not_valid_text self (target s)) ctx) s.
Proof.
  intros Hk. unfold PropertyRule_assign_value, bind, gets.
  by rewrite bool_decide_eq_false_2.
Qed.

Lemma base_assign_unclassified (self : rule) v ctx (s : comp_env) :
  kind (target s) ∈ bindable_to self →
  classified predict_type v = None →
  base_assign self v ctx s = Raises RuntimeError s.
Proof.
  intros Hk Hc. unfold PropertyRule_assign_value, bind, gets.
  rewrite bool_decide_eq_true_2 by done. unfold ret.
  by rewrite unpack_type_classified, Hc.
Qed.

Lemma base_assign_incompatible (self : rule) v ctx (s : comp_env) t :
  kind (target s) ∈ bindable_to self →
  classified predict_type v = Some t →
  compatible is_castable t (valid_types self) = false →
  base_assign self v ctx s
  = Raises (RDLCompileError (incompatible_text self) ctx) s.
Proof.
  intros Hk Hc Hi. unfold PropertyRule_assign_value, bind, gets.
  rewrite bool_decide_eq_true_2 by done. unfold ret.
  by rewrite unpack_type_classified, Hc, Hi.
Qed.

Lemma base_assign_stores (self : rule) v ctx (s : comp_env) t :
  kind (target s) ∈ bindable_to self →
  classified predict_type v = Some t →
  compatible is_castable t (valid_types self) = true →
  base_assign self v ctx s
  = Returns tt (mkEnv (set_property (get_name self) v (target s)) (msg s)).
Proof.
  intros Hk Hc Hi. unfold PropertyRule_assign_value, bind, gets.
  rewrite bool_decide_eq_true_2 by done. unfold ret.
  by rewrite unpack_type_classified, Hc, Hi.
Qed.

(** An exception of the base method leaves a subclass no chance to act. *)
Lemma assign_raises (self : rule) v ctx (s s' : comp_env) e :
  base_assign self v ctx s = Raises e s' →
  assign self v ctx s = Raises e s'.
Proof.
  intros H. unfold assign_value, bind.
  destruct (overrides self); rewrite ?H; done.
Qed.

Lemma assign_returns (self : rule) v ctx (s : comp_env) c :
  base_assign self v ctx s = Returns tt (mkEnv c (msg s)) →
  assign self v ctx s = Returns tt (mkEnv (side_effect self v c) (msg s)).
Proof.
  intros H. unfold assign_value, side_effect, bind.
  destruct (overrides self); rewrite ?H; try done.
  unfold gets; simpl. by case_bool_decide.
Qed.

Lemma side_effect_keeps_own (self : rule) v (c : @Component Expr ErrCtx) :
  opposite_differs self →
  properties c !! get_name self = Some v →
  properties (side_effect self v c) !! get_name self = Some v.
Proof.
  unfold opposite_differs, side_effect. intros Hd Hv.
  destruct (overrides self) as [|opp| | | |actual| | |]; try done.
  - case_bool_decide; [|done]. simpl. by rewrite lookup_delete_ne.
  - simpl. destruct (decide (actual = get_name self)) as [->|Hne].
    + by rewrite lookup_insert_eq.
    + by rewrite lookup_insert_ne.
Qed.

Lemma base_assign_cases (self : rule) v ctx (s : comp_env) :
  base_assign self v ctx s
  = Returns tt (mkEnv (set_property (get_name self) v (target s)) (msg s))
  ∨ ∃ e, base_assign self v ctx s = Raises e s.
Proof.
  destruct (decide (kind (target s) ∈ bindable_to self)) as [Hk|Hk].
  - destruct (classified predict_type v) as [t|] eqn:Hc.
    + destruct (compatible is_castable t (valid_types self)) eqn:Hi.
      * left. by eapply base_assign_stores.
      * right. eexists. by eapply base_assign_incompatible.
    + right. eexists. by apply base_assign_unclassified.
  - right. eexists. by apply base_assign_not_bindable.
Qed.

(** A binding violation is fatal whatever the value, for every rule class:
    nothing is stored and nothing is recorded. *)
Lemma assign_not_bindable (self : rule) v ctx (s : comp_env) :
  kind (target s) ∉ bindable_to self →
  fatal_abort (assign self v ctx s) s (not_valid_text self (target s)) ctx.
Proof.
  intros Hk. apply assign_raises. by apply base_assign_not_bindable.
Qed.

Lemma assign_stores (self : rule) v ctx (s : comp_env) t :
  opposite_differs self →
  kind (target s) ∈ bindable_to self →
  classified predict_type v = Some t →
  compatible is_castable t (valid_types self) = true →
  assigned self v (assign self v ctx s) s.
Proof.
  intros Hd Hk Hc Hi.
  pose proof (base_assign_stores self v ctx s t Hk Hc Hi) as Hb.
  apply assign_returns in Hb. eexists. split; [exact Hb|]. split; [|done].
  simpl. apply side_effect_keeps_own; [done|]. simpl.
  by rewrite lookup_insert_eq.
Qed.

(** After a paired-boolean assignment that returned, the assigned name is
    present and the opposite name is absent. *)
Lemma bool_pair_assign_returns (self : rule) opposite v ctx (s s' : comp_env) :
  overrides self = BoolPairRule opposite →
  opposite ≠ get_name self →
  assign self v ctx s = Returns tt s' →
  properties (target s') !! get_name self = Some v
  ∧ properties (target s') !! opposite = None.
Proof.
  intros Ho Hne Hr.
  destruct (base_assign_cases self v ctx s) as [Hb|[e Hb]].
  - apply assign_returns in Hb. rewrite Hb in Hr.
    injection Hr as <-. unfold side_effect. rewrite Ho. simpl.
    case_bool_decide as Hp; simpl.
    + rewrite lookup_delete_eq, lookup_delete_ne, lookup_insert_eq; done.
    + rewrite lookup_insert_eq. split; [done|].
      destruct (_ !! opposite) eqn:E; [|done]. destruct Hp. by eexists.
  - apply assign_raises in Hb. rewrite Hb in Hr. discriminate.
Qed.

(** C5, as amended: for a rule that is not its own opposite (every rule of
    the catalog) and a value whose type is castable to one of the rule's
    [valid_types], the assignment succeeds, storing the value and reporting
    nothing, if and only if the kind of the component is in [bindable_to];
    and whatever the value, on a component whose kind is not in
    [bindable_to] the assignment is aborted by the fatal [not_valid_text]
    message with nothing stored. *)
Theorem assign_succeeds_iff_bindable (self : rule) v ctx (s : comp_env) t :
  opposite_differs self →
  classified predict_type v = Some t →
  compatible is_castable t (valid_types self) = true →
  (assigned self v (assign self v ctx s) s
   ↔ kind (target s) ∈ bindable_to self)
  ∧ (∀ v', kind (target s) ∉ bindable_to self →
       fatal_abort (assign self v' ctx s) s
         (not_valid_text self (target s)) ctx).
Proof.
  intros Hd Hc Hi. split.
  - split.
    + intros (s' & Hr & _).
      destruct (decide (kind (target s) ∈ bindable_to self)) as [|Hk]; [done|].
      apply (assign_not_bindable self v ctx) in Hk. unfold fatal_abort in Hk.
      rewrite Hk in Hr. discriminate.
    + intros Hk. by eapply assign_stores.
  - intros v' Hk. by apply assign_not_bindable.
Qed.

(** C1, as amended: when the type found for the value is castable to none
    of the rule's [valid_types], the assignment is aborted by a fatal
    message (the [incompatible_text] one when the component kind is
    bindable, the binding one otherwise), nothing is stored and nothing is
    recorded; when it is castable to at least one of them and the component
    kind is in [bindable_to], the assignment returns with the value stored
    and no message. *)
Theorem assign_checks_type (self : rule) v ctx (s : comp_env) t :
  opposite_differs self →
  classified predict_type v = Some t →
  ((∀ valid_type, valid_type ∈ valid_types self →
      is_castable t valid_type = false) →
   fatal_abort (assign self v ctx s) s
     (if bool_decide (kind (target s) ∈ bindable_to self)
      then incompatible_text self
      else not_valid_text self (target s)) ctx)
  ∧ ((∃ valid_type, valid_type ∈ valid_types self
                    ∧ is_castable t valid_type = true) →
     kind (target s) ∈ bindable_to self →
     assigned self v (assign self v ctx s) s).
Proof.
  intros Hd Hc. split.
  - intros Hnone. apply compatible_false in Hnone.
    case_bool_decide as Hk.
    + apply assign_raises. by eapply base_assign_incompatible.
    + by apply assign_not_bindable.
  - intros Hsome Hk. apply compatible_true in Hsome. by eapply assign_stores.
Qed.

(** C4: an assignment through [sync], [async], [msb0] or [lsb0] of a value
    the rule accepts, on a component it binds to, returns, whatever the
    property mapping held before; and in the state it returns the assigned
    name is present with the value and its opposite is absent: at most one
    of the pair is present, and exactly one when the opposite was set
    before. *)
Theorem bool_pair_leaves_one (self : rule) v ctx (s : comp_env) t :
  self ∈ PropertyRuleBoolPair_subclasses →
  kind (target s) ∈ bindable_to self →
  classified predict_type v = Some t →
  compatible is_castable t (valid_types self) = true →
  ∃ s', assign self v ctx s = Returns tt s'
        ∧ properties (target s') !! get_name self = Some v
        ∧ properties (target s') !! opposite_property self = None.
Proof.
  intros Hin Hk Hc Hi.
  pose proof (base_assign_stores self v ctx s t Hk Hc Hi) as Hb.
  apply assign_returns in Hb. eexists. split; [exact Hb|].
  revert Hb. clear Hk Hc Hi. unfold PropertyRuleBoolPair_subclasses in Hin.
  repeat (apply elem_of_cons in Hin as [->|Hin]);
    [| | | |by apply elem_of_nil in Hin];
    intros Hb;
    (eapply bool_pair_assign_returns; [reflexivity|by vm_compute|exact Hb]).
Qed.

(** After an assignment through one of the four alias classes that
    returned, the name of the class and the key it writes besides hold the
    assigned value. *)
Lemma alias_assign_returns (self : rule) actual v ctx (s s' : comp_env) :
  overrides self = AliasRule actual →
  assign self v ctx s = Returns tt s' →
  properties (target s') !! get_name self = Some v
  ∧ properties (target s') !! actual = Some v.
Proof.
  intros Ho Hr.
  destruct (base_assign_cases self v ctx s) as [Hb|[e Hb]].
  - apply assign_returns in Hb. rewrite Hb in Hr.
    injection Hr as <-. unfold side_effect. rewrite Ho. simpl.
    rewrite lookup_insert_eq. split; [|done].
    destruct (decide (actual = get_name self)) as [->|Hne].
    + by rewrite lookup_insert_eq.
    + by rewrite lookup_insert_ne, lookup_insert_eq.
  - apply assign_raises in Hb. rewrite Hb in Hr. discriminate.
Qed.

(** ** Default values *)

(** One level of [get_default], by the class of the rule. *)
Lemma get_default_step (book : rulebook) depth (self : rule) (s : node_env) :
  default_of book (S depth) self s =
    match overrides self with
    | BoolPairRule opposite =>
        Returns (match properties (inst (target s)) !! opposite with
                 | Some v => VBool (py_not v)
                 | None => default self
                 end) s
    | NameRule => Returns (VStr (name (inst (target s)))) s
    | InstWidthRule => Returns (VInt (width (inst (target s)))) s
    | AccesswidthRule =>
        match properties (inst (target s)) !! "regwidth" with
        | Some v => Returns v s
        | None =>
            match lookup_property book "regwidth" with
            | Some regwidth => default_of book depth regwidth s
            | None => Raises (LookupError "regwidth") s
            end
        end
    | _ => Returns (default self) s
    end.
Proof.
  simpl. destruct (overrides self); try reflexivity.
  - unfold PropertyRuleBoolPair_get_default, bind, gets.
    by destruct (_ !! _).
  - unfold Node_get_property, bind, gets.
    destruct (_ !! _); [done|]. by destruct (lookup_property _ _).
Qed.

(** The built-in rules are looked up before the user-defined ones, so
    [regwidth] always resolves to [Prop_regwidth]. *)
Lemma lookup_regwidth (book : rulebook) :
  rdl_properties book = rdl_properties PropertyRuleBook_init →
  lookup_property book "regwidth" = Some Prop_regwidth.
Proof.
  intros Hb. unfold lookup_property. rewrite Hb.
  by vm_compute.
Qed.

(** No call of [get_default], however it ends, changes the node or the
    recorded messages. *)
Lemma get_default_pure (book : rulebook) depth (self : rule) (s : node_env) :
  final_state (default_of book depth self s) = s.
Proof.
  revert self. induction depth as [|depth IH]; intros self; [done|].
  rewrite get_default_step.
  destruct (overrides self); try done.
  - destruct (_ !! _); [done|].
    destruct (lookup_property _ _); [apply IH|done].
Qed.

Lemma get_default_returns (book : rulebook) depth (self : rule) (s : node_env) :
  rdl_properties book = rdl_properties PropertyRuleBook_init →
  ∃ v, default_of book (S (S depth)) self s = Returns v s.
Proof.
  intros Hb. rewrite get_default_step.
  destruct (overrides self); try (by eexists).
  destruct (_ !! _); [by eexists|].
  rewrite (lookup_regwidth book Hb), get_default_step. by eexists.
Qed.

(** C8: with the rule book of the compiler, [get_default] of any rule on any
    node returns a value, returns the same value when called again, and
    leaves the node with its property mapping, and the recorded messages,
    as they were; the last also holds for a call that raises. *)
Theorem get_default_idempotent (book : rulebook) depth (self : rule)
    (s : node_env) :
  rdl_properties book = rdl_properties PropertyRuleBook_init →
  (∃ v, default_of book (S (S depth)) self s = Returns v s
        ∧ twice (default_of book (S (S depth)) self) s = Returns (v, v) s)
  ∧ (∀ limit, final_state (default_of book limit self s) = s).
Proof.
  intros Hb. split; [|intros limit; apply get_default_pure].
  destruct (get_default_returns book depth self s Hb) as [v Hv].
  exists v. split; [done|]. unfold twice, bind. by rewrite !Hv.
Qed.

(** C6: the default of a paired-boolean rule on a node is the negation of
    the value stored under the opposite name when the instance has one, and
    the rule's own static default otherwise. The result is the same with
    every rule book and needs one level of call depth only: no rule, and so
    no default of the opposite, is consulted. *)
Theorem bool_pair_default (book : rulebook) depth (self : rule)
    opposite (s : node_env) :
  overrides self = BoolPairRule opposite →
  default_of book (S depth) self s
  = Returns (match properties (inst (target s)) !! opposite with
             | Some v => VBool (py_not v)
             | None => default self
             end) s
  ∧ (∀ b, properties (inst (target s)) !! opposite = Some (VBool b) →
          default_of book (S depth) self s = Returns (VBool (negb b)) s)
  ∧ (∀ book', default_of book' 1 self s = default_of book (S depth) self s).
Proof.
  intros Ho. rewrite !get_default_step, Ho. split; [done|]. split.
  - by intros b ->.
  - intros book'. by rewrite get_default_step, Ho.
Qed.

(** C9: with [regwidth] not assigned on the instance, the default of
    [accesswidth] is 32, the static default of [regwidth], whatever the
    width of the instance. ([get_default] is only called for a property
    that is not assigned; whether [accesswidth] is plays no part in it.) *)
Theorem accesswidth_default_unset (book : rulebook) depth (s : node_env) :
  rdl_properties book = rdl_properties PropertyRuleBook_init →
  properties (inst (target s)) !! "regwidth" = None →
  default_of book (S (S depth)) Prop_accesswidth s = Returns (VInt 32) s.
Proof.
  intros Hb Hu. rewrite get_default_step.
  cbn [overrides Prop_accesswidth]. rewrite Hu.
  by rewrite (lookup_regwidth book Hb), get_default_step.
Qed.

(** C2, as amended: with [regwidth] assigned on the instance, the default of
    [accesswidth] is that value (16 when [regwidth] is 16), whatever the
    width of the instance. *)
Theorem accesswidth_default_follows_regwidth (book : rulebook) depth
    (s : node_env) v :
  properties (inst (target s)) !! "regwidth" = Some v →
  default_of book (S depth) Prop_accesswidth s = Returns v s.
Proof.
  intros Hv. rewrite get_default_step.
  cbn [overrides Prop_accesswidth]. by rewrite Hv.
Qed.

(** ** Validation of [reset] *)

Lemma reset_validate_int (s : node_env) n :
  validate_node Prop_reset (VInt n) s =
    if ge_pow2 n (width (inst (target s)))
    then Returns tt
           (mkEnv (target s)
              (msg s ++ [(exceeds_width_text n (target s),
                          inst_err_ctx (inst (target s)))]))
    else Returns tt s.
Proof.
  unfold validate. cbn [overrides Prop_reset].
  unfold Prop_reset_validate, bind, gets, when, msg_error, ret.
  by destruct (ge_pow2 _ _).
Qed.

Lemma ge_pow2_spec (n w : Z) :
  (0 ≤ w)%Z → ge_pow2 n w = true ↔ (2 ^ w ≤ n)%Z.
Proof.
  intros Hw. unfold ge_pow2.
  destruct (Z.leb_spec 0 w); [|lia]. apply Z.leb_le.
Qed.

(** C7: for a field node of width [w] (not negative) and an integer [reset]
    value [n], [validate] records an error, and returns, exactly when
    [n >= 2^w]; the error is the [exceeds_width_text] message, and otherwise
    nothing is recorded. *)
Theorem reset_exceeding_width (s : node_env) n :
  (0 ≤ width (inst (target s)))%Z →
  (recoverable_error (validate_node Prop_reset (VInt n) s) s
   ↔ (2 ^ width (inst (target s)) ≤ n)%Z)
  ∧ ((2 ^ width (inst (target s)) ≤ n)%Z →
     validate_node Prop_reset (VInt n) s
     = Returns tt
         (mkEnv (target s)
            (msg s ++ [(exceeds_width_text n (target s),
                        inst_err_ctx (inst (target s)))])))
  ∧ ((n < 2 ^ width (inst (target s)))%Z →
     validate_node Prop_reset (VInt n) s = Returns tt s).
Proof.
  intros Hw. rewrite reset_validate_int.
  pose proof (ge_pow2_spec n _ Hw) as Hspec.
  destruct (ge_pow2 n (width (inst (target s)))) eqn:Hge.
  - assert (2 ^ width (inst (target s)) ≤ n)%Z as Hle by by apply Hspec.
    split; [|split]; [|done|intros; lia].
    split; [done|]. intros _. by eexists _, _, _.
  - assert (¬ (2 ^ width (inst (target s)) ≤ n)%Z) as Hlt.
    { intros Hle. apply Hspec in Hle. discriminate. }
    split; [|split]; [|intros; lia|done].
    split; [|done]. intros (a & s' & m & Hr & Hm).
    simplify_eq. apply (f_equal length) in Hm.
    rewrite length_app in Hm. simpl in Hm. lia.
Qed.

(** C10: [validate] of [reset] raises [RuntimeError], with nothing recorded,
    for every value that is neither an [int] nor a [FieldNode]; for an
    [int] or a [FieldNode] it returns, having recorded at most two
    errors. *)
Theorem reset_validate_outcomes (s : node_env) (v : @value Expr) :
  match v with
  | VInt _ | VFieldNode _ =>
      ∃ errors, validate_node Prop_reset v s
                = Returns tt (mkEnv (target s) (msg s ++ errors))
                ∧ length errors ≤ 2
  | _ => validate_node Prop_reset v s = Raises RuntimeError s
  end.
Proof.
  destruct v as [| |n| | | | |ref|]; try reflexivity.
  - rewrite reset_validate_int. destruct (ge_pow2 _ _).
    + eexists. split; [done|]. simpl. lia.
    + exists []. rewrite app_nil_r. split; [by destruct s|]. simpl. lia.
  - unfold validate. cbn [overrides Prop_reset].
    unfold Prop_reset_validate, bind, gets, when, msg_error, ret.
    destruct (negb _), (String.eqb _ _); simpl.
    + eexists [_; _]. rewrite <- app_assoc. split; [done|]. simpl. lia.
    + eexists [_]. split; [done|]. simpl. lia.
    + eexists [_]. split; [done|]. simpl. lia.
    + exists []. rewrite app_nil_r. split; [by destruct s|]. simpl. lia.
Qed.

End Properties.

(** ** The catalog *)

(** Every rule of the catalog, and [PropertyRuleBoolPair] itself, differs
    from its opposite. *)
Lemma catalog_opposite_differs {Expr} (self : @PropertyRule Expr) :
  self ∈ get_all_subclasses → opposite_differs self.
Proof.
  intros Hin. unfold get_all_subclasses in Hin.
  apply elem_of_app in Hin as [Hin|Hin].
  - unfold PropertyRule_subclasses in Hin.
    repeat (apply elem_of_cons in Hin as [->|Hin]);
      try (by vm_compute). by apply elem_of_nil in Hin.
  - vm_compute in Hin.
    repeat (apply elem_of_cons in Hin as [->|Hin]);
      try (by vm_compute). by apply elem_of_nil in Hin.
Qed.

(** * The methods on concrete inputs *)

(** ** Assignment *)

(** C5 at [regwidth = 16]: stored on a register definition, fatal on a
    field definition. *)
Lemma assign_succeeds_iff_bindable_witness :
  let reg := Sample.start (Sample.component Reg "r" 0 []) in
  let field := Sample.start (Sample.component Field "f" 4 []) in
  let v := VExpr (Sample.IntLiteral 16) in
  let p := @Prop_regwidth Sample.Expr in
  assigned p v (Sample.assign p v 3%nat reg) reg
  ∧ fatal_abort (Sample.assign p v 3%nat field) field
      "The property 'regwidth' is not valid for 'field' components" 3%nat.
Proof.
  intros reg field v p. split.
  - apply (assign_succeeds_iff_bindable Sample.predict_type
             Sample.is_castable p v 3%nat reg Tint I eq_refl eq_refl).
    left.
  - apply (assign_succeeds_iff_bindable Sample.predict_type
             Sample.is_castable p v 3%nat field Tint I eq_refl eq_refl).
    intros Hin. apply list_elem_of_singleton in Hin. discriminate.
Defined.

(** C5 as it is stated fails: [name] may be bound to a field, yet assigning
    it an integer expression stores nothing. *)
Lemma bindable_assignment_can_fail :
  let s := Sample.start (Sample.component Field "f" 1 []) in
  let v := VExpr (Sample.IntLiteral 3) in
  kind (target s) ∈ bindable_to (@Prop_name Sample.Expr)
  ∧ Sample.assign Prop_name v 5%nat s
    = Raises (RDLCompileError "Incompatible assignment to property 'name'"
                5%nat) s
  ∧ ¬ assigned Prop_name v (Sample.assign Prop_name v 5%nat s) s.
Proof.
  intros s v.
  assert (E : Sample.assign Prop_name v 5%nat s
    = Raises (RDLCompileError "Incompatible assignment to property 'name'"
                5%nat) s) by (vm_compute; reflexivity).
  split; [|split].
  - apply (bool_decide_unpack _). by vm_compute.
  - exact E.
  - intros (s' & Hr & _). rewrite E in Hr. discriminate.
Qed.

(** C1 at [regwidth] on a register definition: fatal for a string
    expression, castable to nothing [regwidth] accepts, and stored for an
    integer one. *)
Lemma assign_checks_type_witness :
  let s := Sample.start (Sample.component Reg "r" 0 []) in
  let text := VExpr (Sample.StringLiteral "wide") in
  let number := VExpr (Sample.IntLiteral 16) in
  let p := @Prop_regwidth Sample.Expr in
  fatal_abort (Sample.assign p text 7%nat s) s
    "Incompatible assignment to property 'regwidth'" 7%nat
  ∧ assigned p number (Sample.assign p number 7%nat s) s.
Proof.
  intros s text number p. split.
  - apply (assign_checks_type Sample.predict_type Sample.is_castable
             p text 7%nat s Tstr I eq_refl).
    intros valid_type Hin. apply list_elem_of_singleton in Hin as ->.
    reflexivity.
  - apply (assign_checks_type Sample.predict_type Sample.is_castable
             p number 7%nat s Tint I eq_refl).
    + exists Tint. split; [left|reflexivity].
    + left.
Defined.

(** C1 as it is stated fails: the incompatible assignment is reported
    through [fatal], which aborts; it is not recorded as an error after
    which the method returns. *)
Lemma incompatible_assignment_is_fatal :
  let s := Sample.start (Sample.component Reg "r" 0 []) in
  let v := VExpr (Sample.StringLiteral "wide") in
  classified Sample.predict_type v = Some Tstr
  ∧ (∀ valid_type, valid_type ∈ valid_types (@Prop_regwidth Sample.Expr) →
       Sample.is_castable Tstr valid_type = false)
  ∧ Sample.assign Prop_regwidth v 7%nat s
    = Raises (RDLCompileError
                "Incompatible assignment to property 'regwidth'" 7%nat) s
  ∧ ¬ recoverable_error (Sample.assign Prop_regwidth v 7%nat s) s.
Proof.
  intros s v.
  assert (E : Sample.assign Prop_regwidth v 7%nat s
    = Raises (RDLCompileError
                "Incompatible assignment to property 'regwidth'" 7%nat) s)
    by (vm_compute; reflexivity).
  split; [reflexivity|]. split; [|split].
  - intros valid_type Hin. apply list_elem_of_singleton in Hin as ->.
    reflexivity.
  - exact E.
  - intros (a & s' & m & Hr & _). rewrite E in Hr. discriminate.
Qed.

(** C4 at [sync] assigned on a signal definition that has [async] set. *)
Lemma bool_pair_leaves_one_witness :
  let s := Sample.start
             (Sample.component Signal "irq" 1 [("async", VBool true)]) in
  ∃ s', Sample.assign Prop_sync (VBool true) 2%nat s = Returns tt s'
        ∧ properties (target s') !! "sync" = Some (VBool true)
        ∧ properties (target s') !! "async" = None.
Proof.
  intros s.
  apply (bool_pair_leaves_one Sample.predict_type Sample.is_castable
           Prop_sync (VBool true) 2%nat s Tbool).
  - unfold PropertyRuleBoolPair_subclasses. left.
  - left.
  - reflexivity.
  - reflexivity.
Defined.

(** ** Defaults and validation *)

(** C8 at [accesswidth] on a register node with nothing assigned. *)
Lemma get_default_idempotent_witness :
  let s := Sample.start (Sample.node (Sample.component Reg "r" 16 []) "top.r") in
  let call := get_default PropertyRuleBook_init 2 Prop_accesswidth in
  (∃ v, call s = Returns v s ∧ twice call s = Returns (v, v) s)
  ∧ (∀ limit,
       final_state
         (get_default PropertyRuleBook_init limit Prop_accesswidth s) = s).
Proof.
  intros s call.
  apply (get_default_idempotent PropertyRuleBook_init 0 Prop_accesswidth s).
  reflexivity.
Defined.

(** C6 at [sync] on a signal node that has [async] set. *)
Lemma bool_pair_default_witness :
  let s := Sample.start
             (Sample.node
                (Sample.component Signal "irq" 1 [("async", VBool true)])
                "top.irq") in
  get_default PropertyRuleBook_init 1 Prop_sync s = Returns (VBool false) s.
Proof.
  intros s.
  apply (bool_pair_default PropertyRuleBook_init 0 Prop_sync "async" s).
  reflexivity.
Defined.

(** C9 at a register node of width 16 with nothing assigned. *)
Lemma accesswidth_default_unset_witness :
  let s := Sample.start (Sample.node (Sample.component Reg "r" 16 []) "top.r") in
  get_default PropertyRuleBook_init 2 Prop_accesswidth s
  = Returns (VInt 32) s.
Proof.
  intros s.
  apply (accesswidth_default_unset PropertyRuleBook_init 0 s).
  - reflexivity.
  - vm_compute. reflexivity.
Defined.

(** C2, as amended, at a register node with [regwidth] assigned 16. *)
Lemma accesswidth_default_follows_regwidth_witness :
  let s := Sample.start
             (Sample.node (Sample.component Reg "r" 0 [("regwidth", VInt 16)])
                "top.r") in
  get_default PropertyRuleBook_init 1 Prop_accesswidth s
  = Returns (VInt 16) s.
Proof.
  intros s.
  apply (accesswidth_default_follows_regwidth PropertyRuleBook_init 0 s).
  vm_compute. reflexivity.
Defined.

(** C2 as it is stated fails: on a register node of width 16 with neither
    [regwidth] nor [accesswidth] assigned, the default of [accesswidth] is
    32, and no call depth makes it 16. *)
Lemma accesswidth_default_is_not_declared_width :
  let s := Sample.start (Sample.node (Sample.component Reg "r" 16 []) "top.r") in
  kind (inst (target s)) = Reg
  ∧ width (inst (target s)) = 16%Z
  ∧ properties (inst (target s)) !! "regwidth" = None
  ∧ properties (inst (target s)) !! "accesswidth" = None
  ∧ get_default PropertyRuleBook_init 2 Prop_accesswidth s
    = Returns (VInt 32) s
  ∧ ∀ depth, get_default PropertyRuleBook_init depth Prop_accesswidth s
             ≠ Returns (VInt 16) s.
Proof.
  intros s. repeat split; try (vm_compute; reflexivity).
  intros [|[|depth]].
  - vm_compute. discriminate.
  - vm_compute. discriminate.
  - rewrite get_default_step. cbn [overrides Prop_accesswidth].
    replace (properties (inst (target s)) !! "regwidth") with
      (@None (@value Sample.Expr)) by (vm_compute; reflexivity).
    rewrite lookup_regwidth by reflexivity.
    rewrite get_default_step. discriminate.
Qed.

(** C7 at a field node of width 4 with [reset = 20]. *)
Lemma reset_exceeding_width_witness :
  let s := Sample.start
             (Sample.node (Sample.component Field "f" 4 []) "top.r.f") in
  validate Prop_reset (VInt 20) s
  = Returns tt
      (mkEnv (target s)
         [("The reset value (20) of field 'f' exceeds it's width (4)", 1%nat)]).
Proof.
  intros s.
  apply (reset_exceeding_width s 20); vm_compute; discriminate.
Defined.

(** C3 fails on the code: [Prop_incrthreshold.assign_value] writes
    [incrthreshold] a second time and leaves [threshold] as it was, and
    likewise for [saturate]. After [threshold = 1; incrthreshold = 2] on a
    field definition the two names hold different values. *)
Lemma alias_names_diverge :
  let s := Sample.start (Sample.component Field "count" 8 []) in
  let one := VExpr (Sample.IntLiteral 1) in
  let two := VExpr (Sample.IntLiteral 2) in
  (∃ s', bind (Sample.assign Prop_threshold one 1%nat)
           (λ _, Sample.assign Prop_incrthreshold two 2%nat) s
         = Returns tt s'
         ∧ properties (target s') !! "threshold" = Some one
         ∧ properties (target s') !! "incrthreshold" = Some two)
  ∧ (∃ s', bind (Sample.assign Prop_saturate one 1%nat)
             (λ _, Sample.assign Prop_incrsaturate two 2%nat) s
           = Returns tt s'
           ∧ properties (target s') !! "saturate" = Some one
           ∧ properties (target s') !! "incrsaturate" = Some two).
Proof.
  intros s one two. split; eexists; (split; [vm_compute; reflexivity|]);
    split; vm_compute; reflexivity.
Qed.

(** * Further properties *)

Section RuleBook.

Context {Expr : Type}.

#[local] Abbreviation rule := (@PropertyRule Expr).
#[local] Abbreviation rulebook := (@PropertyRuleBook Expr).

Lemma load_rules_snoc (classes : list rule) (c : rule) :
  load_rules (classes ++ [c])
  = if String.prefix "Prop_" (cls_name c)
    then <[get_name c := c]> (load_rules classes)
    else load_rules classes.
Proof. unfold load_rules. by rewrite foldl_app. Qed.

Lemma load_rules_inv (classes : list rule) (n : string) (r : rule) :
  load_rules classes !! n = Some r →
  r ∈ classes ∧ String.prefix "Prop_" (cls_name r) = true ∧ get_name r = n.
Proof.
  revert n r. induction classes as [|c classes IH] using rev_ind;
    intros n r Hl.
  - unfold load_rules in Hl. simpl in Hl. by rewrite lookup_empty in Hl.
  - rewrite load_rules_snoc in Hl. rewrite elem_of_app, list_elem_of_singleton.
    destruct (String.prefix "Prop_" (cls_name c)) eqn:Hp.
    + destruct (decide (get_name c = n)) as [<-|Hne].
      * rewrite lookup_insert_eq in Hl. injection Hl as <-. auto.
      * rewrite lookup_insert_ne in Hl by done.
        destruct (IH n r Hl) as (? & ? & ?). auto.
    + destruct (IH n r Hl) as (? & ? & ?). auto.
Qed.

Lemma load_rules_app_other (classes rest : list rule) (n : string) :
  (∀ c, c ∈ rest → String.prefix "Prop_" (cls_name c) = true →
        get_name c ≠ n) →
  load_rules (classes ++ rest) !! n = load_rules classes !! n.
Proof.
  induction rest as [|c rest IH] using rev_ind; intros Hrest.
  - by rewrite app_nil_r.
  - rewrite app_assoc, load_rules_snoc.
    assert (load_rules (classes ++ rest) !! n = load_rules classes !! n)
      as Hrec.
    { apply IH. intros c' Hc'. apply Hrest, elem_of_app. by left. }
    destruct (String.prefix "Prop_" (cls_name c)) eqn:Hp; [|done].
    rewrite lookup_insert_ne; [done|].
    apply Hrest; [|done]. apply elem_of_app. right. by left.
Qed.

(** X2: a class whose name starts with [Prop_] is filed under its name, and
    stays there unless a class discovered later has the same name: the
    later one replaces it, as a [dict] assignment does. *)
Theorem load_rules_last_wins (classes rest : list rule) (c : rule) :
  String.prefix "Prop_" (cls_name c) = true →
  (∀ c', c' ∈ rest → String.prefix "Prop_" (cls_name c') = true →
         get_name c' ≠ get_name c) →
  load_rules (classes ++ c :: rest) !! get_name c = Some c.
Proof.
  intros Hp Hrest.
  change (classes ++ c :: rest) with (classes ++ [c] ++ rest).
  rewrite app_assoc, load_rules_app_other by done.
  by rewrite load_rules_snoc, Hp, lookup_insert_eq.
Qed.

Lemma load_rules_none (classes : list rule) (n : string) :
  (∀ c, c ∈ classes → String.prefix "Prop_" (cls_name c) = true →
        get_name c ≠ n) →
  load_rules classes !! n = None.
Proof.
  intros Hnone.
  change classes with ([] ++ classes).
  rewrite load_rules_app_other by done.
  unfold load_rules. simpl. apply lookup_empty.
Qed.

(** X1: whatever classes [PropertyRuleBook.__init__] discovers, a rule it
    files under a name is one of those classes, its class name starts with
    [Prop_], and the name is the one [get_name] gives it; and a name is on
    file exactly when some discovered class with the prefix has it. *)
Theorem load_rules_domain (classes : list rule) (n : string) :
  (∀ r, load_rules classes !! n = Some r →
        r ∈ classes ∧ String.prefix "Prop_" (cls_name r) = true
        ∧ get_name r = n)
  ∧ (is_Some (load_rules classes !! n)
     ↔ ∃ c, c ∈ classes ∧ String.prefix "Prop_" (cls_name c) = true
            ∧ get_name c = n).
Proof.
  split; [intros r; apply load_rules_inv|]. split.
  - intros [r Hr]. exists r. by apply load_rules_inv.
  - intros (c & Hin & Hp & Hn).
    destruct (load_rules classes !! n) as [r|] eqn:Hl; [by eexists|].
    apply list_elem_of_split in Hin as (before & after & ->).
    exfalso. revert Hl. clear -Hp Hn.
    revert before. induction after as [|a after IH] using rev_ind;
      intros before Hl.
    + rewrite load_rules_snoc, Hp, Hn, lookup_insert_eq in Hl. discriminate.
    + rewrite app_comm_cons, app_assoc, load_rules_snoc in Hl.
      destruct (String.prefix "Prop_" (cls_name a)) eqn:Ha.
      * destruct (decide (get_name a = n)) as [Hna|Hna].
        -- rewrite Hna, lookup_insert_eq in Hl. discriminate.
        -- rewrite lookup_insert_ne in Hl by done. by eapply IH.
      * by eapply IH.
Qed.

(** X3: the rule book of the compiler holds the catalog and nothing else.
    Every class of [get_all_subclasses] whose name starts with [Prop_] is
    found under its own name, also in a book that has user-defined rules of
    the same name, and its class name is [Prop_] followed by that name;
    and what a book without user-defined rules answers is such a class. *)
Theorem lookup_property_catalog (book : rulebook) (n : string) (r : rule) :
  rdl_properties book = rdl_properties PropertyRuleBook_init →
  (r ∈ get_all_subclasses → String.prefix "Prop_" (cls_name r) = true →
   lookup_property book (get_name r) = Some r
   ∧ cls_name r = "Prop_" +:+ get_name r)
  ∧ (user_properties book = ∅ → lookup_property book n = Some r →
     r ∈ get_all_subclasses
     ∧ String.prefix "Prop_" (cls_name r) = true ∧ get_name r = n).
Proof.
  intros Hb. split.
  - intros Hin Hp. unfold lookup_property. rewrite Hb.
    unfold get_all_subclasses in Hin. apply elem_of_app in Hin as [Hin|Hin].
    + unfold PropertyRule_subclasses in Hin.
      repeat (apply elem_of_cons in Hin as [->|Hin]);
        try (split; vm_compute; reflexivity);
        try (vm_compute in Hp; discriminate Hp).
      by apply elem_of_nil in Hin.
    + vm_compute in Hin.
      repeat (apply elem_of_cons in Hin as [->|Hin]);
        try (split; vm_compute; reflexivity).
      by apply elem_of_nil in Hin.
  - intros Hu Hl. unfold lookup_property in Hl. rewrite Hb, Hu in Hl.
    apply load_rules_inv.
    change (load_rules get_all_subclasses)
      with (rdl_properties (@PropertyRuleBook_init Expr)).
    destruct (rdl_properties PropertyRuleBook_init !! n); [done|].
    by rewrite lookup_empty in Hl.
Qed.

(** X19: a user-defined rule is found under a name that no class of the
    catalog has, and lookup of such a name answers what the user-defined
    rules hold, [None] when they hold nothing. *)
Theorem lookup_user_property (book : rulebook) (n : string) :
  rdl_properties book = rdl_properties PropertyRuleBook_init →
  (∀ c : rule, c ∈ get_all_subclasses →
        String.prefix "Prop_" (cls_name c) = true → get_name c ≠ n) →
  lookup_property book n = user_properties book !! n.
Proof.
  intros Hb Hfree. unfold lookup_property. rewrite Hb.
  change (rdl_properties (@PropertyRuleBook_init Expr))
    with (load_rules (@get_all_subclasses Expr)).
  rewrite load_rules_none by done. by destruct (_ !! _).
Qed.

End RuleBook.

Section FurtherAssignment.

Context {Expr ErrCtx : Type}.
Variable predict_type : Expr -> rdl_type.
Variable is_castable : rdl_type -> rdl_type -> bool.

#[local] Abbreviation rule := (@PropertyRule Expr).
#[local] Abbreviation comp_env := (@Env ErrCtx (@Component Expr ErrCtx)).
#[local] Abbreviation base_assign :=
  (@PropertyRule_assign_value Expr ErrCtx predict_type is_castable).
#[local] Abbreviation assign :=
  (@assign_value Expr ErrCtx predict_type is_castable).

Lemma component_eq (c c' : @Component Expr ErrCtx) :
  same_attributes c c' → properties c' = properties c → c' = c.
Proof.
  destruct c, c'. unfold same_attributes. simpl.
  intros (-> & -> & -> & -> & -> & ->) ->. done.
Qed.

Lemma side_effect_attributes (self : rule) v (c : @Component Expr ErrCtx) :
  same_attributes c (side_effect self v c).
Proof.
  unfold side_effect, same_attributes.
  destruct (overrides self); try done. by case_bool_decide.
Qed.

Lemma side_effect_properties (self : rule) v (c : @Component Expr ErrCtx) :
  properties (side_effect self v (set_property (get_name self) v c))
  = assign_map self v (properties c).
Proof.
  unfold side_effect, assign_map.
  destruct (overrides self) as [|opposite| | | | | | |]; try done.
  case_bool_decide as Hp; [done|]. simpl.
  symmetry. apply delete_id.
  destruct (_ !! opposite) eqn:E; [|done]. destruct Hp. by eexists.
Qed.

(** When an assignment returns: the three checks passed, and the new state
    is the old one with the mapping changed by [assign_map]. *)
Lemma assign_returns_inv (self : rule) v ctx (s s' : comp_env) :
  assign self v ctx s = Returns tt s' →
  kind (target s) ∈ bindable_to self
  ∧ (∃ t, classified predict_type v = Some t
          ∧ compatible is_castable t (valid_types self) = true)
  ∧ msg s' = msg s
  ∧ same_attributes (target s) (target s')
  ∧ properties (target s') = assign_map self v (properties (target s)).
Proof.
  intros Hr.
  destruct (decide (kind (target s) ∈ bindable_to self)) as [Hk|Hk].
  2:{ apply (base_assign_not_bindable predict_type is_castable self v ctx)
        in Hk.
      apply assign_raises in Hk. rewrite Hk in Hr. discriminate. }
  destruct (classified predict_type v) as [t|] eqn:Hc.
  2:{ pose proof (base_assign_unclassified predict_type is_castable
                    self v ctx s Hk Hc) as Hb.
      apply assign_raises in Hb. rewrite Hb in Hr. discriminate. }
  destruct (compatible is_castable t (valid_types self)) eqn:Hi.
  2:{ pose proof (base_assign_incompatible predict_type is_castable
                    self v ctx s t Hk Hc Hi) as Hb.
      apply assign_raises in Hb. rewrite Hb in Hr. discriminate. }
  pose proof (base_assign_stores predict_type is_castable
                self v ctx s t Hk Hc Hi) as Hb.
  apply assign_returns in Hb. rewrite Hb in Hr. injection Hr as <-.
  split; [done|]. split; [by exists t|]. split; [done|]. simpl. split.
  - destruct (side_effect_attributes self v
                (set_property (get_name self) v (target s)))
      as (? & ? & ? & ? & ? & ?).
    by repeat split.
  - apply side_effect_properties.
Qed.

Lemma assign_returns_intro (self : rule) v ctx (s : comp_env) t :
  kind (target s) ∈ bindable_to self →
  classified predict_type v = Some t →
  compatible is_castable t (valid_types self) = true →
  ∃ s', assign self v ctx s = Returns tt s'.
Proof.
  intros Hk Hc Hi.
  pose proof (base_assign_stores predict_type is_castable
                self v ctx s t Hk Hc Hi) as Hb.
  apply assign_returns in Hb. by eexists.
Qed.

Lemma comp_env_eq (s s' : comp_env) :
  msg s' = msg s → same_attributes (target s) (target s') →
  properties (target s') = properties (target s) → s' = s.
Proof.
  destruct s as [c m], s' as [c' m']. simpl. intros -> Ha Hp.
  f_equal. by apply component_eq.
Qed.

(** X4: an assignment that raises has changed nothing: the component with
    its property mapping and the recorded messages are as before the call,
    for every rule class and every value. The exception is the fatal
    binding message, [RuntimeError], or the fatal incompatibility message. *)
Theorem assign_raises_nothing_changed (self : rule) v ctx (s s' : comp_env) e :
  assign self v ctx s = Raises e s' →
  s' = s
  ∧ (e = RDLCompileError (not_valid_text self (target s)) ctx
     ∨ e = RuntimeError
     ∨ e = RDLCompileError (incompatible_text self) ctx).
Proof.
  intros Hr.
  destruct (decide (kind (target s) ∈ bindable_to self)) as [Hk|Hk].
  2:{ apply (base_assign_not_bindable predict_type is_castable self v ctx)
        in Hk.
      apply assign_raises in Hk. rewrite Hk in Hr. injection Hr as <- <-.
      auto. }
  destruct (classified predict_type v) as [t|] eqn:Hc.
  2:{ pose proof (base_assign_unclassified predict_type is_castable
                    self v ctx s Hk Hc) as Hb.
      apply assign_raises in Hb. rewrite Hb in Hr. injection Hr as <- <-.
      auto. }
  destruct (compatible is_castable t (valid_types self)) eqn:Hi.
  2:{ pose proof (base_assign_incompatible predict_type is_castable
                    self v ctx s t Hk Hc Hi) as Hb.
      apply assign_raises in Hb. rewrite Hb in Hr. injection Hr as <- <-.
      auto. }
  destruct (assign_returns_intro self v ctx s t Hk Hc Hi) as [s'' Hs].
  rewrite Hs in Hr. discriminate.
Qed.

(** X5: a value that is neither a [bool], a [PrecedenceType] literal, an
    expression nor a user-defined enumeration raises [RuntimeError] on a
    component the rule binds to, whatever the rule accepts, and stores
    nothing; on a component the rule does not bind to, the fatal binding
    message comes first. *)
Theorem assign_unclassified_value (self : rule) v ctx (s : comp_env) :
  classified predict_type v = None →
  assign self v ctx s
  = Raises (if bool_decide (kind (target s) ∈ bindable_to self)
            then RuntimeError
            else RDLCompileError (not_valid_text self (target s)) ctx) s.
Proof.
  intros Hc. apply assign_raises. case_bool_decide as Hk.
  - by apply base_assign_unclassified.
  - by apply base_assign_not_bindable.
Qed.

(** X6: an assignment that returns records no message, leaves every
    attribute of the component but the property mapping as it was, and
    leaves every key of the mapping as it was except the rule's own name
    and the opposite or second key of its subclass. *)
Theorem assign_frame (self : rule) v ctx (s s' : comp_env) :
  assign self v ctx s = Returns tt s' →
  msg s' = msg s
  ∧ same_attributes (target s) (target s')
  ∧ ∀ k, k ∉ touched_keys self →
         properties (target s') !! k = properties (target s) !! k.
Proof.
  intros Hr.
  destruct (assign_returns_inv self v ctx s s' Hr) as (_ & _ & Hm & Ha & Hp).
  split; [done|]. split; [done|]. intros k Hk. rewrite Hp.
  unfold touched_keys in Hk. unfold assign_map.
  apply not_elem_of_cons in Hk as [Hn Hk].
  destruct (overrides self) as [|opposite| | | |actual| | |];
    try (by rewrite lookup_insert_ne).
  - apply not_elem_of_cons in Hk as [Ho _].
    by rewrite lookup_delete_ne, lookup_insert_ne.
  - apply not_elem_of_cons in Hk as [Ho _].
    by rewrite !lookup_insert_ne.
Qed.

Lemma assign_map_overwrites (self : rule) v1 v2
    (m : gmap string (@value Expr)) :
  assign_map self v2 (assign_map self v1 m) = assign_map self v2 m.
Proof.
  unfold assign_map.
  destruct (overrides self) as [|opposite| | | |actual| | |];
    try (by rewrite insert_insert_eq).
  - apply map_eq. intros k.
    destruct (decide (k = opposite)) as [->|Ho].
    + by rewrite !lookup_delete_eq.
    + rewrite !lookup_delete_ne by done.
      destruct (decide (k = get_name self)) as [->|Hn].
      * by rewrite !lookup_insert_eq.
      * by rewrite !lookup_insert_ne, lookup_delete_ne, lookup_insert_ne.
  - apply map_eq. intros k.
    destruct (decide (k = actual)) as [->|Ha].
    + by rewrite !lookup_insert_eq.
    + rewrite !(lookup_insert_ne _ actual) by done.
      destruct (decide (k = get_name self)) as [->|Hn].
      * by rewrite !lookup_insert_eq.
      * by rewrite !lookup_insert_ne.
Qed.

(** X7: a second assignment through the same rule overwrites the first
    without a trace: the state after both is the state the second alone
    would have given. *)
Theorem assign_overwrites (self : rule) v1 v2 ctx1 ctx2
    (s s1 s2 : comp_env) :
  assign self v1 ctx1 s = Returns tt s1 →
  assign self v2 ctx2 s = Returns tt s2 →
  assign self v2 ctx2 s1 = Returns tt s2.
Proof.
  intros H1 H2.
  destruct (assign_returns_inv self v1 ctx1 s s1 H1)
    as (_ & _ & Hm1 & Ha1 & Hp1).
  destruct (assign_returns_inv self v2 ctx2 s s2 H2)
    as (Hk & (t & Hc & Hi) & Hm2 & Ha2 & Hp2).
  assert (kind (target s1) ∈ bindable_to self) as Hk1.
  { destruct Ha1 as (-> & _). done. }
  destruct (assign_returns_intro self v2 ctx2 s1 t Hk1 Hc Hi) as [s3 H3].
  rewrite H3. f_equal.
  destruct (assign_returns_inv self v2 ctx2 s1 s3 H3)
    as (_ & _ & Hm3 & Ha3 & Hp3).
  apply comp_env_eq.
  - congruence.
  - unfold same_attributes in *.
    destruct Ha1 as (? & ? & ? & ? & ? & ?), Ha2 as (? & ? & ? & ? & ? & ?),
      Ha3 as (? & ? & ? & ? & ? & ?).
    repeat split; congruence.
  - rewrite Hp3, Hp1, Hp2. apply assign_map_overwrites.
Qed.

Lemma assign_map_other (self : rule) v (m : gmap string (@value Expr)) k :
  k ∉ touched_keys self → assign_map self v m !! k = m !! k.
Proof.
  unfold touched_keys, assign_map. intros Hk.
  apply not_elem_of_cons in Hk as [Hn Hk].
  destruct (overrides self) as [|opposite| | | |actual| | |];
    try (by rewrite lookup_insert_ne).
  - apply not_elem_of_cons in Hk as [Ho _].
    by rewrite lookup_delete_ne, lookup_insert_ne.
  - apply not_elem_of_cons in Hk as [Ho _].
    by rewrite !lookup_insert_ne.
Qed.

(** What an assignment leaves under a key it touches does not depend on
    what the mapping held before. *)
Lemma assign_map_touched (self : rule) v (m m' : gmap string (@value Expr)) k :
  k ∈ touched_keys self → assign_map self v m !! k = assign_map self v m' !! k.
Proof.
  unfold touched_keys, assign_map. intros Hk.
  destruct (overrides self) as [|opposite| | | |actual| | |];
    try (apply list_elem_of_singleton in Hk as ->;
         by rewrite !lookup_insert_eq).
  - destruct (decide (k = opposite)) as [->|Ho].
    + by rewrite !lookup_delete_eq.
    + apply elem_of_cons in Hk as [->|Hk].
      * by rewrite !lookup_delete_ne, !lookup_insert_eq.
      * by apply list_elem_of_singleton in Hk.
  - destruct (decide (k = actual)) as [->|Ha].
    + by rewrite !lookup_insert_eq.
    + apply elem_of_cons in Hk as [->|Hk].
      * by rewrite !(lookup_insert_ne _ actual), !lookup_insert_eq.
      * by apply list_elem_of_singleton in Hk.
Qed.

Lemma assign_map_commute (p1 p2 : rule) v1 v2
    (m : gmap string (@value Expr)) :
  (∀ k, k ∈ touched_keys p1 → k ∉ touched_keys p2) →
  assign_map p2 v2 (assign_map p1 v1 m) = assign_map p1 v1 (assign_map p2 v2 m).
Proof.
  intros Hd. apply map_eq. intros k.
  destruct (decide (k ∈ touched_keys p1)) as [H1|H1].
  - rewrite (assign_map_other p2) by auto.
    by apply assign_map_touched.
  - rewrite (assign_map_other p1 v1 (assign_map p2 v2 m)) by done.
    destruct (decide (k ∈ touched_keys p2)) as [H2|H2].
    + by apply assign_map_touched.
    + by rewrite !assign_map_other.
Qed.

(** X8: assignments through two rules that touch no key in common commute:
    when one after the other returns, so does the other order, and it ends
    in the same state. *)
Theorem assign_commute (p1 p2 : rule) v1 v2 ctx1 ctx2 (s s1 s12 : comp_env) :
  (∀ k, k ∈ touched_keys p1 → k ∉ touched_keys p2) →
  assign p1 v1 ctx1 s = Returns tt s1 →
  assign p2 v2 ctx2 s1 = Returns tt s12 →
  ∃ s2, assign p2 v2 ctx2 s = Returns tt s2
        ∧ assign p1 v1 ctx1 s2 = Returns tt s12.
Proof.
  intros Hd H1 H12.
  destruct (assign_returns_inv p1 v1 ctx1 s s1 H1)
    as (Hk1 & (t1 & Hc1 & Hi1) & Hm1 & Ha1 & Hp1).
  destruct (assign_returns_inv p2 v2 ctx2 s1 s12 H12)
    as (Hk2 & (t2 & Hc2 & Hi2) & Hm12 & Ha12 & Hp12).
  assert (kind (target s) ∈ bindable_to p2) as Hk2'.
  { destruct Ha1 as (<- & _). done. }
  destruct (assign_returns_intro p2 v2 ctx2 s t2 Hk2' Hc2 Hi2) as [s2 H2].
  exists s2. split; [done|].
  destruct (assign_returns_inv p2 v2 ctx2 s s2 H2)
    as (_ & _ & Hm2 & Ha2 & Hp2).
  assert (kind (target s2) ∈ bindable_to p1) as Hk1'.
  { destruct Ha2 as (-> & _). done. }
  destruct (assign_returns_intro p1 v1 ctx1 s2 t1 Hk1' Hc1 Hi1) as [s21 H21].
  rewrite H21. f_equal.
  destruct (assign_returns_inv p1 v1 ctx1 s2 s21 H21)
    as (_ & _ & Hm21 & Ha21 & Hp21).
  apply comp_env_eq.
  - congruence.
  - unfold same_attributes in *.
    destruct Ha1 as (? & ? & ? & ? & ? & ?), Ha2 as (? & ? & ? & ? & ? & ?),
      Ha12 as (? & ? & ? & ? & ? & ?), Ha21 as (? & ? & ? & ? & ? & ?).
    repeat split; congruence.
  - rewrite Hp21, Hp2, Hp12, Hp1. symmetry. by apply assign_map_commute.
Qed.

(** X9: after an assignment through [threshold] or [saturate] that
    returned, the alias name and the name with [incr] before it hold the
    assigned value. *)
Theorem alias_writes_both (self : rule) v ctx (s s' : comp_env) :
  self ∈ [Prop_threshold; Prop_saturate] →
  assign self v ctx s = Returns tt s' →
  properties (target s') !! get_name self = Some v
  ∧ properties (target s') !! ("incr" +:+ get_name self) = Some v.
Proof.
  intros Hin Hr.
  repeat (apply elem_of_cons in Hin as [->|Hin]);
    [| |by apply elem_of_nil in Hin];
    (eapply alias_assign_returns; [reflexivity|exact Hr]).
Qed.

(** X10: a paired-boolean assignment decides the default of the opposite.
    For two rules that name each other as opposites, after [b] is assigned
    through one of them, the default of the other on a node of that
    component is [not b], with any rule book. *)
Theorem pair_assign_then_default (book : @PropertyRuleBook Expr) depth
    (self other : rule) (b : bool) ctx (s s' : comp_env) path :
  overrides self = BoolPairRule (get_name other) →
  overrides other = BoolPairRule (get_name self) →
  get_name other ≠ get_name self →
  assign self (VBool b) ctx s = Returns tt s' →
  get_default book (S depth) other (node_of s' path)
  = Returns (VBool (negb b)) (node_of s' path).
Proof.
  intros Ho Ho' Hne Hr.
  destruct (bool_pair_assign_returns predict_type is_castable
              self (get_name other) (VBool b) ctx s s' Ho Hne Hr) as [Hown _].
  rewrite get_default_step, Ho'. unfold node_of. simpl. by rewrite Hown.
Qed.

(** X20: the empty attribute lists of the base class reject everything. A
    rule with an empty [bindable_to] aborts every assignment with the fatal
    binding message; a rule with an empty [valid_types] aborts the
    assignment of every value it can classify with the fatal
    incompatibility message, whatever castability says. *)
Theorem assign_empty_attributes (self : rule) v ctx (s : comp_env) :
  (bindable_to self = [] →
   fatal_abort (assign self v ctx s) s (not_valid_text self (target s)) ctx)
  ∧ (valid_types self = [] →
     kind (target s) ∈ bindable_to self →
     is_Some (classified predict_type v) →
     fatal_abort (assign self v ctx s) s (incompatible_text self) ctx).
Proof.
  split.
  - intros He. apply assign_raises, base_assign_not_bindable.
    rewrite He. apply not_elem_of_nil.
  - intros He Hk [t Hc]. apply assign_raises.
    eapply base_assign_incompatible; [done|done|]. by rewrite He.
Qed.

End FurtherAssignment.

Section FurtherValidation.

Context {Expr ErrCtx : Type}.

#[local] Abbreviation rule := (@PropertyRule Expr).
#[local] Abbreviation node_env := (@Env ErrCtx (@Node Expr ErrCtx)).
#[local] Abbreviation validate_node := (@validate Expr ErrCtx).

Lemma no_message_added {T} (s : @Env ErrCtx T) (errors : list (string * ErrCtx)) :
  mkEnv (target s) (msg s ++ errors) = s ↔ errors = [].
Proof.
  destruct s as [x m]. simpl. split.
  - intros H. injection H as H. apply (f_equal length) in H.
    rewrite length_app in H. destruct errors; [done|]. simpl in H. lia.
  - intros ->. by rewrite app_nil_r.
Qed.

(** X11: [validate] of every rule class, on every value, leaves the node as
    it is and only adds to the recorded messages, at most two of them; when
    it raises, nothing was recorded, and the exception is never the fatal
    one of the message sink. *)
Theorem validate_only_records (self : rule) v (s : node_env) :
  target (final_state (validate_node self v s)) = target s
  ∧ (∃ errors, msg (final_state (validate_node self v s)) = msg s ++ errors
               ∧ length errors ≤ 2)
  ∧ (∀ e s', validate_node self v s = Raises e s' →
             s' = s ∧ ∀ text ctx, e ≠ RDLCompileError text ctx).
Proof.
  assert (∀ o : @outcome ErrCtx node_env unit,
            (o = Returns tt s ∨ o = Raises RuntimeError s
             ∨ o = Raises AttributeError s
             ∨ ∃ errors, o = Returns tt (mkEnv (target s) (msg s ++ errors))
                         ∧ length errors ≤ 2) →
            target (final_state o) = target s
            ∧ (∃ errors, msg (final_state o) = msg s ++ errors
                         ∧ length errors ≤ 2)
            ∧ (∀ e s', o = Raises e s' →
                       s' = s ∧ ∀ text ctx, e ≠ RDLCompileError text ctx))
    as Hcases.
  { assert (∃ errors : list (string * ErrCtx),
              msg s = msg s ++ errors ∧ length errors ≤ 2) as Hnone.
    { exists []. rewrite app_nil_r. split; [done|simpl; lia]. }
    intros o [->|[->|[->|(errors & -> & Hlen)]]]; simpl.
    - done.
    - split; [done|]. split; [done|]. intros e s' [= <- <-]. done.
    - split; [done|]. split; [done|]. intros e s' [= <- <-]. done.
    - split; [done|]. split; [|done]. by exists errors. }
  apply Hcases. unfold validate.
  destruct (overrides self); try (by left).
  - unfold Prop_errextbus_validate, bind, gets, when, msg_error, ret.
    destruct (_ && _); [|by left].
    do 3 right. eexists [_]. split; [done|]. simpl. lia.
  - unfold Prop_next_validate, bind, gets, when, msg_error, ret, raise.
    destruct v; try (by right; right; left).
    destruct (String.eqb _ _); [|by left].
    do 3 right. eexists [_]. split; [done|]. simpl. lia.
  - unfold Prop_reset_validate, bind, gets, when, msg_error, ret, raise.
    destruct v; try (by right; left).
    + destruct (ge_pow2 _ _); [|by left].
      do 3 right. eexists [_]. split; [done|]. simpl. lia.
    + destruct (negb _), (String.eqb _ _); simpl; [| | |by left];
        do 3 right.
      * eexists [_; _]. rewrite <- app_assoc. split; [done|]. simpl. lia.
      * eexists [_]. split; [done|]. simpl. lia.
      * eexists [_]. split; [done|]. simpl. lia.
Qed.

(** X12: [validate] of [reset] on a reference to a field node always
    returns. It records nothing exactly when the referenced field has the
    width of the node and another path, and it records both of its messages
    exactly when the widths differ and the path is the node's own. *)
Theorem reset_reference_checked (s : node_env) (ref : NodeRef) :
  ∃ errors,
    validate_node Prop_reset (VFieldNode ref) s
    = Returns tt (mkEnv (target s) (msg s ++ errors))
    ∧ (errors = [] ↔ width (inst (target s)) = ref_width ref
                      ∧ get_path (target s) ≠ ref_path ref)
    ∧ (length errors = 2 ↔ width (inst (target s)) ≠ ref_width ref
                            ∧ get_path (target s) = ref_path ref).
Proof.
  unfold validate. cbn [overrides Prop_reset].
  unfold Prop_reset_validate, bind, gets, when, msg_error, ret.
  destruct (Z.eqb_spec (width (inst (target s))) (ref_width ref)) as [Hw|Hw],
    (String.eqb_spec (get_path (target s)) (ref_path ref)) as [Hp|Hp]; simpl.
  - eexists [_]. split; [done|]. split; split; try done.
    + by intros [_ ?].
    + by intros [? _].
  - exists []. rewrite app_nil_r. split; [by destruct s|]. split; split;
      try done. by intros [? _].
  - eexists [_; _]. rewrite <- app_assoc. split; [done|]. split; split;
      try done. by intros [? _].
  - eexists [_]. split; [done|]. split; split; try done.
    + by intros [? _].
    + by intros [_ ?].
Qed.

(** X13: [validate] of [next] on a reference to a field node records its
    error, and returns, exactly when the referenced path is the node's own;
    a reference to any other field is accepted with nothing recorded. *)
Theorem next_self_reference (s : node_env) (ref : NodeRef) :
  (recoverable_error (validate_node Prop_next (VFieldNode ref) s) s
   ↔ get_path (target s) = ref_path ref)
  ∧ (validate_node Prop_next (VFieldNode ref) s = Returns tt s
     ↔ get_path (target s) ≠ ref_path ref).
Proof.
  unfold validate. cbn [overrides Prop_next].
  unfold Prop_next_validate, bind, gets, when, msg_error, ret.
  destruct (String.eqb_spec (get_path (target s)) (ref_path ref)) as [Hp|Hp].
  - split; split; try done.
    + intros _. by eexists _, _, _.
    + intros [= H]. apply no_message_added in H. discriminate.
  - split; split; try done.
    intros (a & s' & m & Hr & Hm). simplify_eq.
      apply (f_equal length) in Hm.
    rewrite length_app in Hm. simpl in Hm. lia.
Qed.

(** X14: [validate] of [errextbus] on a value that is [None], a [bool], an
    [int] or a [str] never raises. It records its error exactly when the
    instance is not external and the value equals [True], which the integer
    1 does as well; otherwise nothing is recorded. *)
Theorem errextbus_needs_external (s : node_env) (v : @value Expr) :
  (v = VNone ∨ (∃ b, v = VBool b) ∨ (∃ n, v = VInt n) ∨ (∃ t, v = VStr t)) →
  (recoverable_error (validate_node Prop_errextbus v s) s
   ↔ external (inst (target s)) = false ∧ (v = VBool true ∨ v = VInt 1))
  ∧ (validate_node Prop_errextbus v s = Returns tt s
     ↔ ¬ (external (inst (target s)) = false
          ∧ (v = VBool true ∨ v = VInt 1))).
Proof.
  intros Hkind.
  assert (py_eq_True v = true ↔ v = VBool true ∨ v = VInt 1) as Hv.
  { clear Hkind. destruct v as [|[]|n| | | | | |]; simpl;
      try (split; [done|by intros [?|?]]).
    - split; [by left|done].
    - split; [intros H%Z.eqb_eq; subst; by right|].
      intros [?|[= ->]]; done. }
  clear Hkind.
  unfold validate. cbn [overrides Prop_errextbus].
  unfold Prop_errextbus_validate, bind, gets, when, msg_error, ret.
  destruct (external (inst (target s))); simpl.
  - split; split; try done.
    + intros (a & s' & m & Hr & Hm). simplify_eq.
      apply (f_equal length) in Hm.
      rewrite length_app in Hm. simpl in Hm. lia.
    + by intros [? _].
    + by intros _ [? _].
  - destruct (py_eq_True v) eqn:Ht.
    + assert (v = VBool true ∨ v = VInt 1) as Hyes by by apply Hv.
      split; split; try done.
      * intros _. by eexists _, _, _.
      * intros [= H]. apply no_message_added in H. discriminate.
      * intros Hn. destruct Hn. done.
    + assert (¬ (v = VBool true ∨ v = VInt 1)) as Hno.
      { intros H. apply Hv in H. discriminate. }
      split; split; try done.
      * intros (a & s' & m & Hr & Hm). simplify_eq.
      apply (f_equal length) in Hm.
        rewrite length_app in Hm. simpl in Hm. lia.
      * by intros [_ ?].
      * by intros _ [_ ?].
Qed.

(** X15: on a field node whose width is not negative, [validate] of
    [reset] never reports an integer that is zero or negative: only the
    upper bound is checked. *)
Theorem reset_nonpositive_accepted (s : node_env) (n : Z) :
  (0 ≤ width (inst (target s)))%Z →
  (n ≤ 0)%Z →
  validate_node Prop_reset (VInt n) s = Returns tt s.
Proof.
  intros Hw Hn. rewrite reset_validate_int.
  destruct (ge_pow2 n (width (inst (target s)))) eqn:Hge; [|done].
  apply (ge_pow2_spec n _ Hw) in Hge.
  pose proof (Z.pow_pos_nonneg 2 _ eq_refl Hw). lia.
Qed.

End FurtherValidation.

Section FurtherCatalog.

Context {Expr : Type}.

#[local] Abbreviation rule := (@PropertyRule Expr).

Lemma remove_Prop__no_occurrence (s : string) :
  occurs_Prop_ s = false → remove_Prop_ 0 s = s.
Proof.
  induction s as [|c s IH]; [done|]. intros H.
  cbn [occurs_Prop_] in H. apply orb_false_iff in H as [Hp Ho].
  cbn [remove_Prop_]. rewrite Hp. f_equal. by apply IH.
Qed.

(** X16: the name of a class. Where [Prop_] does not occur in [s], a class
    called [s] has the name [s], and so has a class called [Prop_] followed
    by [s]. *)
Theorem get_name_strips_prefix (cls : rule) (s : string) :
  occurs_Prop_ s = false →
  (cls_name cls = s → get_name cls = s)
  ∧ (cls_name cls = "Prop_" +:+ s → get_name cls = s).
Proof.
  intros Ho. unfold get_name. split; intros ->.
  - by apply remove_Prop__no_occurrence.
  - transitivity (remove_Prop_ 0 s); [by destruct s|].
    by apply remove_Prop__no_occurrence.
Qed.

(** X17: every rule class of the catalog binds to at least one component
    class and accepts at least one type, and its static default is [None]
    or a value whose type is one of the types it accepts. *)
Theorem catalog_attributes (cls : rule) :
  cls ∈ get_all_subclasses →
  String.prefix "Prop_" (cls_name cls) = true →
  bindable_to cls ≠ [] ∧ valid_types cls ≠ []
  ∧ (default cls = VNone
     ∨ ∃ t, python_type (default cls) = Some t ∧ t ∈ valid_types cls).
Proof.
  intros Hin Hp.
  assert (∀ (t : rdl_type) (types : list rdl_type),
            bool_decide (t ∈ types) = true → t ∈ types) as Hmem.
  { intros t types H. by apply bool_decide_eq_true in H. }
  unfold get_all_subclasses in Hin. apply elem_of_app in Hin as [Hin|Hin];
    [unfold PropertyRule_subclasses in Hin|vm_compute in Hin];
    repeat (apply elem_of_cons in Hin as [->|Hin]);
    try (by apply elem_of_nil in Hin);
    try (vm_compute in Hp; discriminate Hp);
    (split; [discriminate|]; split; [discriminate|]);
    first [ left; reflexivity
          | right; eexists; split; [reflexivity|];
            apply Hmem; vm_compute; reflexivity ].
Qed.

Ltac literal_names :=
  repeat match goal with
         | H : context [get_name ?r] |- _ =>
             let n := eval vm_compute in (get_name r) in
             progress change (get_name r) with n in H
         end.

(** X18: the paired-boolean rules of the catalog come in pairs. The
    opposite of each is in the rule book, names the first as its own
    opposite, binds to the same components in the same mutex group, and has
    the negated static default; so on a node where neither name is assigned
    the two defaults are the negation of each other. *)
Theorem catalog_pairs (self : rule) :
  self ∈ PropertyRuleBoolPair_subclasses →
  ∃ other,
    lookup_property PropertyRuleBook_init (opposite_property self)
    = Some other
    ∧ other ∈ PropertyRuleBoolPair_subclasses
    ∧ opposite_property other = get_name self
    ∧ get_name other ≠ get_name self
    ∧ bindable_to other = bindable_to self
    ∧ mutex_group other = mutex_group self
    ∧ ∀ ErrCtx (book : @PropertyRuleBook Expr) depth
        (s : @Env ErrCtx (@Node Expr ErrCtx)),
        properties (inst (target s)) !! get_name self = None →
        properties (inst (target s)) !! get_name other = None →
        ∃ d, get_default book (S depth) self s = Returns (VBool d) s
             ∧ get_default book (S depth) other s
               = Returns (VBool (negb d)) s.
Proof.
  intros Hin. unfold PropertyRuleBoolPair_subclasses in Hin.
  repeat (apply elem_of_cons in Hin as [->|Hin]);
    [exists Prop_async|exists Prop_sync|exists Prop_lsb0|exists Prop_msb0
    |by apply elem_of_nil in Hin];
    (split; [vm_compute; reflexivity|]);
    (split; [unfold PropertyRuleBoolPair_subclasses;
             repeat first [by left|right]|]);
    (split; [vm_compute; reflexivity|]);
    (split; [vm_compute; discriminate|]);
    (split; [reflexivity|]); (split; [reflexivity|]);
    intros ErrCtx book depth s Hs Ho; literal_names;
    rewrite !get_default_step;
    cbn [overrides Prop_sync Prop_async Prop_msb0 Prop_lsb0];
    rewrite Hs, Ho; by eexists.
Qed.

End FurtherCatalog.

(** ** The further properties on concrete inputs *)

(** X1 at [regwidth] in the catalog. *)
Lemma load_rules_domain_witness :
  @Prop_regwidth Sample.Expr ∈ get_all_subclasses
  ∧ String.prefix "Prop_" (cls_name (@Prop_regwidth Sample.Expr)) = true
  ∧ get_name (@Prop_regwidth Sample.Expr) = "regwidth".
Proof.
  apply (load_rules_domain get_all_subclasses "regwidth").
  vm_compute. reflexivity.
Defined.

(** X2 at two classes of one name: the second is the one on file. *)
Lemma load_rules_last_wins_witness :
  let first : @PropertyRule Sample.Expr :=
    mkRule "Prop_vendor" [Reg] [Tint] VNone true None PlainRule in
  let second : @PropertyRule Sample.Expr :=
    mkRule "Prop_vendor" [Field] [Tbool] (VBool false) true None PlainRule in
  load_rules ([first] ++ second :: [Prop_regwidth]) !! "vendor" = Some second.
Proof.
  intros first second.
  apply (load_rules_last_wins [first] [Prop_regwidth] second).
  - reflexivity.
  - intros c' Hin _. apply list_elem_of_singleton in Hin as ->.
    vm_compute. discriminate.
Defined.

(** X3 at [regwidth] in the book of a fresh compiler. *)
Lemma lookup_property_catalog_witness :
  lookup_property PropertyRuleBook_init "regwidth"
  = Some (@Prop_regwidth Sample.Expr)
  ∧ cls_name (@Prop_regwidth Sample.Expr) = "Prop_regwidth"
  ∧ @Prop_regwidth Sample.Expr ∈ get_all_subclasses.
Proof.
  destruct (lookup_property_catalog (@PropertyRuleBook_init Sample.Expr)
              "regwidth" Prop_regwidth eq_refl) as [Hfound Hsound].
  destruct Hsound as (Hin & Hp & _); [reflexivity|vm_compute; reflexivity|].
  destruct (Hfound Hin Hp) as [Hl Hn]. by repeat split.
Defined.

(** X4 at [name] assigned an integer expression on a field definition. *)
Lemma assign_raises_nothing_changed_witness :
  let s := Sample.start (Sample.component Field "f" 1 []) in
  let p := @Prop_name Sample.Expr in
  let e := RDLCompileError "Incompatible assignment to property 'name'"
             5%nat in
  s = s
  ∧ (e = RDLCompileError (not_valid_text p (target s)) 5%nat
     ∨ e = RuntimeError
     ∨ e = RDLCompileError (incompatible_text p) 5%nat).
Proof.
  intros s p e.
  apply (assign_raises_nothing_changed Sample.predict_type Sample.is_castable
           p (VExpr (Sample.IntLiteral 3)) 5%nat s s e).
  vm_compute. reflexivity.
Defined.

(** X5 at a bare integer assigned to [regwidth] on a register definition. *)
Lemma assign_unclassified_value_witness :
  let s := Sample.start (Sample.component Reg "r" 0 []) in
  Sample.assign Prop_regwidth (VInt 16) 4%nat s = Raises RuntimeError s.
Proof.
  intros s.
  apply (assign_unclassified_value Sample.predict_type Sample.is_castable
           Prop_regwidth (VInt 16) 4%nat s).
  reflexivity.
Defined.

(** X6 at [sync] assigned on a signal definition with [async] and
    [activelow] set. *)
Lemma assign_frame_witness :
  let s := Sample.start
             (Sample.component Signal "irq" 1
                [("async", VBool true); ("activelow", VBool true)]) in
  let s' := Sample.start
              (Sample.component Signal "irq" 1
                 [("sync", VBool true); ("activelow", VBool true)]) in
  msg s' = msg s
  ∧ same_attributes (target s) (target s')
  ∧ ∀ k, k ∉ touched_keys (@Prop_sync Sample.Expr) →
         properties (target s') !! k = properties (target s) !! k.
Proof.
  intros s s'.
  apply (assign_frame Sample.predict_type Sample.is_castable
           Prop_sync (VBool true) 2%nat s s').
  vm_compute. reflexivity.
Defined.

(** X7 at [regwidth] assigned 16 and then 32 on a register definition. *)
Lemma assign_overwrites_witness :
  let s := Sample.start (Sample.component Reg "r" 0 []) in
  let s1 := Sample.start
              (Sample.component Reg "r" 0
                 [("regwidth", VExpr (Sample.IntLiteral 16))]) in
  let s2 := Sample.start
              (Sample.component Reg "r" 0
                 [("regwidth", VExpr (Sample.IntLiteral 32))]) in
  Sample.assign Prop_regwidth (VExpr (Sample.IntLiteral 32)) 2%nat s1
  = Returns tt s2.
Proof.
  intros s s1 s2.
  apply (assign_overwrites Sample.predict_type Sample.is_castable
           Prop_regwidth (VExpr (Sample.IntLiteral 16))
           (VExpr (Sample.IntLiteral 32)) 1%nat 2%nat s s1 s2);
    vm_compute; reflexivity.
Defined.

(** X8 at [regwidth] and [shared] on a register definition. *)
Lemma assign_commute_witness :
  let s := Sample.start (Sample.component Reg "r" 0 []) in
  let s12 := Sample.start
               (Sample.component Reg "r" 0
                  [("regwidth", VExpr (Sample.IntLiteral 16));
                   ("shared", VBool true)]) in
  ∃ s2, Sample.assign Prop_shared (VBool true) 2%nat s = Returns tt s2
        ∧ Sample.assign Prop_regwidth (VExpr (Sample.IntLiteral 16)) 1%nat s2
          = Returns tt s12.
Proof.
  intros s s12.
  apply (assign_commute Sample.predict_type Sample.is_castable
           Prop_regwidth Prop_shared (VExpr (Sample.IntLiteral 16))
           (VBool true) 1%nat 2%nat s
           (Sample.start
              (Sample.component Reg "r" 0
                 [("regwidth", VExpr (Sample.IntLiteral 16))])) s12).
  - intros k H1 H2. vm_compute in H1, H2.
    apply list_elem_of_singleton in H1 as ->.
    apply list_elem_of_singleton in H2. discriminate.
  - vm_compute. reflexivity.
  - vm_compute. reflexivity.
Defined.

(** X9 at [threshold] assigned on a field definition. *)
Lemma alias_writes_both_witness :
  let s' := Sample.start
              (Sample.component Field "count" 8
                 [("threshold", VExpr (Sample.IntLiteral 5));
                  ("incrthreshold", VExpr (Sample.IntLiteral 5))]) in
  properties (target s') !! get_name (@Prop_threshold Sample.Expr)
  = Some (VExpr (Sample.IntLiteral 5))
  ∧ properties (target s')
      !! ("incr" +:+ get_name (@Prop_threshold Sample.Expr))
    = Some (VExpr (Sample.IntLiteral 5)).
Proof.
  intros s'.
  apply (alias_writes_both Sample.predict_type Sample.is_castable
           Prop_threshold (VExpr (Sample.IntLiteral 5)) 1%nat
           (Sample.start (Sample.component Field "count" 8 [])) s').
  - left.
  - vm_compute. reflexivity.
Defined.

(** X10 at [async] assigned [True] on a signal definition: [sync] then
    defaults to [False]. *)
Lemma pair_assign_then_default_witness :
  let s' := Sample.start
              (Sample.component Signal "irq" 1 [("async", VBool true)]) in
  get_default PropertyRuleBook_init 1 Prop_sync (node_of s' "top.irq")
  = Returns (VBool false) (node_of s' "top.irq").
Proof.
  intros s'.
  apply (pair_assign_then_default Sample.predict_type Sample.is_castable
           PropertyRuleBook_init 0 Prop_async Prop_sync true 3%nat
           (Sample.start (Sample.component Signal "irq" 1 [])) s' "top.irq").
  - reflexivity.
  - reflexivity.
  - vm_compute. discriminate.
  - vm_compute. reflexivity.
Defined.

(** X15 at [reset = -1] on a field node of width 4. *)
Lemma reset_nonpositive_accepted_witness :
  let s := Sample.start
             (Sample.node (Sample.component Field "f" 4 []) "top.r.f") in
  validate Prop_reset (VInt (-1)) s = Returns tt s.
Proof.
  intros s. apply (reset_nonpositive_accepted s (-1)); vm_compute;
    discriminate.
Defined.

(** X14 at the integer 1 on a register node that is not external. *)
Lemma errextbus_needs_external_witness :
  let s := Sample.start
             (Sample.node (Sample.component Reg "r" 0 []) "top.r") in
  recoverable_error (validate Prop_errextbus (VInt 1) s) s.
Proof.
  intros s.
  apply (errextbus_needs_external s (VInt 1)).
  - right. right. left. by exists 1%Z.
  - split; [reflexivity|by right].
Defined.

(** X16 at the class [Prop_regwidth]. *)
Lemma get_name_strips_prefix_witness :
  get_name (@Prop_regwidth Sample.Expr) = "regwidth".
Proof.
  apply (get_name_strips_prefix Prop_regwidth "regwidth"); reflexivity.
Defined.

(** X17 at [precedence], whose default is a [PrecedenceType] literal. *)
Lemma catalog_attributes_witness :
  bindable_to (@Prop_precedence Sample.Expr) ≠ []
  ∧ valid_types (@Prop_precedence Sample.Expr) ≠ []
  ∧ (default (@Prop_precedence Sample.Expr) = VNone
     ∨ ∃ t, python_type (default (@Prop_precedence Sample.Expr)) = Some t
            ∧ t ∈ valid_types (@Prop_precedence Sample.Expr)).
Proof.
  apply (catalog_attributes Prop_precedence).
  - unfold get_all_subclasses, PropertyRule_subclasses.
    apply elem_of_app. left. repeat first [left|right].
  - reflexivity.
Defined.

(** X18 at [msb0], whose opposite is [lsb0]. *)
Lemma catalog_pairs_witness :
  ∃ other : @PropertyRule Sample.Expr,
    lookup_property PropertyRuleBook_init "lsb0" = Some other
    ∧ opposite_property other = "msb0"
    ∧ mutex_group other = Some "M".
Proof.
  assert (@Prop_msb0 Sample.Expr ∈ PropertyRuleBoolPair_subclasses) as Hin.
  { unfold PropertyRuleBoolPair_subclasses. repeat first [left|right]. }
  destruct (catalog_pairs Prop_msb0 Hin)
    as (other & Hl & _ & Ho & _ & _ & Hm & _).
  exists other. split; [exact Hl|]. split; [exact Ho|exact Hm].
Defined.

(** X19 at a book with one user-defined rule. *)
Lemma lookup_user_property_witness :
  let vendor : @PropertyRule Sample.Expr :=
    mkRule "UDP_vendor" [Reg] [Tstr] VNone true None PlainRule in
  let book := {| rdl_properties := rdl_properties PropertyRuleBook_init;
                 user_properties := {[ "vendor" := vendor ]} |} in
  lookup_property book "vendor" = Some vendor.
Proof.
  intros vendor book.
  transitivity (user_properties book !! "vendor"); [|reflexivity].
  apply (lookup_user_property book "vendor"); [reflexivity|].
  intros c Hin Hp. unfold get_all_subclasses in Hin.
  apply elem_of_app in Hin as [Hin|Hin];
    [unfold PropertyRule_subclasses in Hin|vm_compute in Hin];
    repeat (apply elem_of_cons in Hin as [->|Hin]);
    try (vm_compute; discriminate);
    by apply elem_of_nil in Hin.
Defined.

(** X20 at [PropertyRuleBoolPair] itself, and at a rule that binds to
    registers and accepts no type. *)
Lemma assign_empty_attributes_witness :
  let s := Sample.start (Sample.component Reg "r" 0 []) in
  let sealed : @PropertyRule Sample.Expr :=
    mkRule "Prop_sealed" [Reg] [] VNone true None PlainRule in
  fatal_abort (Sample.assign PropertyRuleBoolPair (VBool true) 1%nat s) s
    "The property 'PropertyRuleBoolPair' is not valid for 'reg' components"
    1%nat
  ∧ fatal_abort (Sample.assign sealed (VBool true) 1%nat s) s
      "Incompatible assignment to property 'sealed'" 1%nat.
Proof.
  intros s sealed. split.
  - apply (assign_empty_attributes Sample.predict_type Sample.is_castable
             PropertyRuleBoolPair (VBool true) 1%nat s). reflexivity.
  - apply (assign_empty_attributes Sample.predict_type Sample.is_castable
             sealed (VBool true) 1%nat s).
    + reflexivity.
    + left.
    + by eexists.
Defined.
